(** * Credential scan agent (secret.py)

    A shallow embedding of [locate_secret_in_repo],
    [run_credential_scan_agent] and [scan_github_repo], together with the
    properties of the scan-and-normalize pipeline.

    Conventions of the embedding.
    - A Python [str] is a [string]; every [ascii] stands for the code point
      of the same number (code points below 256).
    - A Python [int] is a [Z].
    - The values [json.loads] can return are the type [pyval]; a Python
      [dict] with string keys is an association list looked up from the
      front.
    - Everything the program reaches outside itself ([json.loads],
      [subprocess.run], the directory walk and file reads, [tempfile],
      [git], [shutil]) is a field of the record [env]; the functions are
      stated for every [env].
    - Effects are threaded through a state-and-exception monad [M]: the
      state holds the list object bound to the local name [findings] and the
      log of external actions performed so far.
    - Calls to [logger] have no effect on any value or action below and are
      left out. *)

From Stdlib Require Import String Ascii List ZArith Lia Bool.
From Stdlib Require Import Floats.SpecFloat.
Import ListNotations.

Local Open Scope string_scope.
Local Open Scope Z_scope.

(** ** Python values *)

#[local] Set Warnings "-register-all".

Inductive pyval : Type :=
| PNone
| PBool (b : bool)
| PInt (z : Z)
| PFloat (f : spec_float)
| PStr (s : string)
| PList (items : list pyval)
| PDict (kvs : list (string * pyval)).

Definition dict : Type := list (string * pyval).

(** [bool(v)]: the truth value Python gives [v] in [not v] and [v and ...]. *)
Definition truthy (v : pyval) : bool :=
  match v with
  | PNone => false
  | PBool b => b
  | PInt z => negb (z =? 0)
  | PFloat f => match f with S754_zero _ => false | _ => true end
  | PStr s => negb (s =? "")%string
  | PList items => match items with [] => false | _ => true end
  | PDict kvs => match kvs with [] => false | _ => true end
  end.

(** [type(v).__name__] *)
Definition type_name (v : pyval) : string :=
  match v with
  | PNone => "NoneType"
  | PBool _ => "bool"
  | PInt _ => "int"
  | PFloat _ => "float"
  | PStr _ => "str"
  | PList _ => "list"
  | PDict _ => "dict"
  end.

Fixpoint dict_lookup (k : string) (d : dict) : option pyval :=
  match d with
  | [] => None
  | (k', v) :: rest => if (k =? k')%string then Some v else dict_lookup k rest
  end.

Definition has_key (k : string) (d : dict) : bool :=
  match dict_lookup k d with Some _ => true | None => false end.

(** ** Exceptions *)

Inductive exn_class : Type :=
| FileNotFoundError
| PermissionError
| IsADirectoryError
| UnicodeDecodeError
| OSError            (* any other OSError *)
| AttributeError
| TypeError
| ValueError
| RecursionError
| GitCommandError
| KeyboardInterrupt. (* a BaseException that is not an Exception *)

Record exn : Type := Exn { exn_cls : exn_class; exn_msg : string }.

Definition exn_class_eqb (a b : exn_class) : bool :=
  match a, b with
  | FileNotFoundError, FileNotFoundError
  | PermissionError, PermissionError
  | IsADirectoryError, IsADirectoryError
  | UnicodeDecodeError, UnicodeDecodeError
  | OSError, OSError
  | AttributeError, AttributeError
  | TypeError, TypeError
  | ValueError, ValueError
  | RecursionError, RecursionError
  | GitCommandError, GitCommandError
  | KeyboardInterrupt, KeyboardInterrupt => true
  | _, _ => false
  end.

(** [isinstance(e, Exception)] *)
Definition is_Exception (c : exn_class) : bool :=
  match c with KeyboardInterrupt => false | _ => true end.

(** ** Strings *)

(** [needle in hay] for two strings. *)
Fixpoint contains (needle hay : string) : bool :=
  String.prefix needle hay
  || match hay with
     | EmptyString => false
     | String _ rest => contains needle rest
     end.

(** [c.isspace()] for a code point below 256. *)
Definition is_space (c : ascii) : bool :=
  let n := Z.of_nat (nat_of_ascii c) in
  ((9 <=? n) && (n <=? 13)) || ((28 <=? n) && (n <=? 32))
  || (n =? 133) || (n =? 160).

Fixpoint lstrip (s : string) : string :=
  match s with
  | EmptyString => EmptyString
  | String c rest => if is_space c then lstrip rest else s
  end.

Fixpoint rstrip (s : string) : string :=
  match s with
  | EmptyString => EmptyString
  | String c rest =>
      let rest' := rstrip rest in
      if is_space c && (rest' =? "")%string then EmptyString
      else String c rest'
  end.

(** [s.strip()] *)
Definition strip (s : string) : string := rstrip (lstrip s).

(** A line boundary of [str.splitlines] (code points below 256). *)
Definition is_linebreak (c : ascii) : bool :=
  let n := Z.of_nat (nat_of_ascii c) in
  ((10 <=? n) && (n <=? 13)) || ((28 <=? n) && (n <=? 30)) || (n =? 133).

Definition CR : ascii := "013"%char.
Definition LF : ascii := "010"%char.

(** [s.splitlines()]: [cur] is the line being collected; carriage return
    followed by line feed is one boundary; no empty last line. *)
Fixpoint splitlines_from (cur s : string) : list string :=
  match s with
  | EmptyString => if (cur =? "")%string then [] else [cur]
  | String c rest =>
      if is_linebreak c then
        match rest with
        | String c' rest' =>
            if Ascii.eqb c CR && Ascii.eqb c' LF
            then cur :: splitlines_from "" rest'
            else cur :: splitlines_from "" rest
        | EmptyString => cur :: splitlines_from "" rest
        end
      else splitlines_from (cur ++ String c "") rest
  end.

Definition splitlines (s : string) : list string := splitlines_from "" s.

(** [os.path.join(a, b)] on POSIX. *)
Fixpoint ends_with_slash (s : string) : bool :=
  match s with
  | EmptyString => false
  | String c EmptyString => Ascii.eqb c "/"%char
  | String _ rest => ends_with_slash rest
  end.

Definition path_join (a b : string) : string :=
  if String.prefix "/" b then b
  else if (a =? "")%string || ends_with_slash a then a ++ b
  else a ++ "/" ++ b.

(** ** The environment *)

(** The object [subprocess.run(..., capture_output=True, text=True)]
    returns. *)
Record CompletedProcess : Type :=
  { returncode : Z; stdout : string; stderr : string }.

(** What a path met during the walk does when the program touches it:
    [is_file()] raises, or answers [False], or answers [True]; in the last
    case iterating over the opened file yields [lines] (each with its line
    end, as Python gives them) and then, if [failure] is set, raises it (a
    failing [open] is [Regular [] (Some e)]). *)
Inductive file_state : Type :=
| StatRaises (e : exn)
| NotRegular
| Regular (lines : list string) (failure : option exn).

Record dir_entry : Type :=
  { entry_path : string; entry_state : file_state }.

(** What [json.loads(text)] does: it returns a value, or raises
    [json.JSONDecodeError], or raises another exception ([ValueError] for
    an integer of more than 4300 digits, [RecursionError] for nesting that
    is too deep). *)
Inductive loaded : Type :=
| Loaded (v : pyval)
| DecodeError
| LoadRaises (e : exn).

Record env : Type :=
  { (* json.loads(text) *)
    json_loads : string -> loaded;
    (* subprocess.run(argv, ...): raises, or returns a CompletedProcess *)
    subprocess_run : list string -> exn + CompletedProcess;
    (* the paths pathlib.Path(root).rglob yields for the pattern "*", in
       the order it yields them; the walk itself is taken not to raise *)
    rglob : string -> list dir_entry;
    (* tempfile.mkdtemp() *)
    mkdtemp : exn + string;
    (* Repo.clone_from(url, path): the exception it raises, if any *)
    clone_from : string -> string -> option exn;
    (* the error shutil.rmtree meets while deleting, if any *)
    rmtree_error : string -> option exn }.

(** ** Actions and the monad *)

(** What the program does that can be observed from outside, plus one
    mark, [EvLocate], logged on entry to [locate_secret_in_repo] so that its
    invocations can be counted. *)
Inductive event : Type :=
| EvRun (argv : list string)              (* subprocess.run(argv, ...) *)
| EvLocate (repo_path : string) (raw_secret : pyval)
| EvRglob (root : string)                 (* the walk under root starts *)
| EvIsFile (path : string)                (* path.is_file() *)
| EvOpen (path : string)                  (* open(path, ...) *)
| EvMkdtemp                               (* tempfile.mkdtemp() *)
| EvClone (url path : string)             (* Repo.clone_from(url, path) *)
| EvRmtree (path : string).               (* shutil.rmtree(path, ...) *)

(** The interpreter's state: the list bound to [findings] and the log. *)
Record state : Type :=
  { findings : list dict; trace : list event }.

Definition result (A : Type) : Type := (exn + A)%type.

Definition M (A : Type) : Type := state -> result A * state.

Definition ret {A} (a : A) : M A := fun s => (inr a, s).

Definition raise {A} (e : exn) : M A := fun s => (inl e, s).

Definition bind {A B} (m : M A) (k : A -> M B) : M B :=
  fun s =>
    match m s with
    | (inl e, s') => (inl e, s')
    | (inr a, s') => k a s'
    end.

Notation "x <- m ;; k" := (bind m (fun x => k))
  (at level 61, m at next level, right associativity).
Notation "m ;;; k" := (bind m (fun _ => k))
  (at level 61, right associativity).

Definition lift {A} (r : result A) : M A :=
  match r with inl e => raise e | inr a => ret a end.

(** [try: body / except <handles>: handler(e)] *)
Definition try_except {A} (body : M A) (handles : exn -> bool)
    (handler : exn -> M A) : M A :=
  fun s =>
    match body s with
    | (inl e, s') => if handles e then handler e s' else (inl e, s')
    | r => r
    end.

(** [try: body / finally: final] *)
Definition try_finally {A} (body : M A) (final : M unit) : M A :=
  fun s =>
    match body s with
    | (r, s') =>
        match final s' with
        | (inl e, s'') => (inl e, s'')
        | (inr _, s'') => (r, s'')
        end
    end.

Definition emit (ev : event) : M unit :=
  fun s => (inr tt, {| findings := findings s; trace := trace s ++ [ev] |}).

Definition get_findings : M (list dict) := fun s => (inr (findings s), s).

Definition set_findings (fs : list dict) : M unit :=
  fun s => (inr tt, {| findings := fs; trace := trace s |}).

(** [findings.append(d)] *)
Definition append_finding (d : dict) : M unit :=
  fun s => (inr tt, {| findings := findings s ++ [d]; trace := trace s |}).

Definition initial_state : state := {| findings := []; trace := [] |}.

(** ** locate_secret_in_repo *)

(** [raw_secret in line], [line] being a [str]. *)
Definition py_in (raw_secret : pyval) (line : string) : result bool :=
  match raw_secret with
  | PStr needle => inr (contains needle line)
  | v => inl (Exn TypeError
           ("'in <string>' requires string as left operand, not "
              ++ type_name v))
  end.

(** [for i, line in enumerate(f, start=i): if raw_secret in line: return i] *)
Fixpoint scan_lines (raw_secret : pyval) (i : Z) (lines : list string)
  : result (option Z) :=
  match lines with
  | [] => inr None
  | line :: rest =>
      match py_in raw_secret line with
      | inl e => inl e
      | inr true => inr (Some i)
      | inr false => scan_lines raw_secret (i + 1) rest
      end
  end.

(** The classes named by the [except] clause of the walk. *)
Definition skipped (e : exn) : bool :=
  match exn_cls e with
  | UnicodeDecodeError | PermissionError | IsADirectoryError => true
  | _ => false
  end.

(** One turn of the loop over the walk: [Some r] when the function returns
    [r] from inside the loop, [None] when the loop goes on. *)
Definition visit (raw_secret : pyval) (ent : dir_entry)
  : M (option (pyval * pyval)) :=
  try_except
    (emit (EvIsFile (entry_path ent)) ;;;
     match entry_state ent with
     | StatRaises e => raise e
     | NotRegular => ret None
     | Regular lines failure =>
         emit (EvOpen (entry_path ent)) ;;;
         hit <- lift (scan_lines raw_secret 1 lines) ;;
         match hit with
         | Some i => ret (Some (PStr (entry_path ent), PInt i))
         | None =>
             match failure with
             | Some e => raise e
             | None => ret None
             end
         end
     end)
    skipped
    (fun _ => ret None).

Fixpoint walk (raw_secret : pyval) (ents : list dir_entry)
  : M (pyval * pyval) :=
  match ents with
  | [] => ret (PNone, PNone)
  | ent :: rest =>
      r <- visit raw_secret ent ;;
      match r with
      | Some found => ret found
      | None => walk raw_secret rest
      end
  end.

Definition locate_secret_in_repo (E : env) (repo_path : string)
    (raw_secret : pyval) : M (pyval * pyval) :=
  emit (EvLocate repo_path raw_secret) ;;;
  if negb (truthy raw_secret) then ret (PNone, PNone)
  else
    emit (EvRglob repo_path) ;;;
    walk raw_secret (rglob E repo_path).

(** ** run_credential_scan_agent *)

Record report : Type :=
  { agent : string; score : Z; details : list dict }.

(** [obj.get(key, default)]: only a [dict] has the method. *)
Definition py_get (obj : pyval) (key : string) (default : pyval)
  : result pyval :=
  match obj with
  | PDict kvs =>
      inr (match dict_lookup key kvs with Some v => v | None => default end)
  | v => inl (Exn AttributeError
           ("'" ++ type_name v ++ "' object has no attribute 'get'"))
  end.

(** [data.get("SourceMetadata", {}).get("Data", {}).get(field)] *)
Definition metadata_field (data : pyval) (field : string) : result pyval :=
  match py_get data "SourceMetadata" (PDict []) with
  | inl e => inl e
  | inr sm =>
      match py_get sm "Data" (PDict []) with
      | inl e => inl e
      | inr d => py_get d field PNone
      end
  end.

(** The test guarding the fallback, [(not file or not line_no) and raw]. *)
Definition needs_fallback (file line_no raw : pyval) : bool :=
  (negb (truthy file) || negb (truthy line_no)) && truthy raw.

(** The body of the loop from the extraction of [file] to
    [findings.append]. *)
Definition process_record (E : env) (repo_path : string) (data : pyval)
  : M unit :=
  file <- lift (metadata_field data "file") ;;
  line_no <- lift (metadata_field data "line") ;;
  raw <- lift (py_get data "Raw" PNone) ;;
  loc <- (if needs_fallback file line_no raw
          then locate_secret_in_repo E repo_path raw
          else ret (file, line_no)) ;;
  detector <- lift (py_get data "DetectorName" PNone) ;;
  append_finding
    [("file", fst loc); ("line", snd loc);
     ("detector", detector); ("raw", raw)].

(** One line of the detector's output. *)
Definition process_line (E : env) (repo_path : string) (line : string)
  : M unit :=
  let line := strip line in
  if (line =? "")%string then ret tt
  else
    match json_loads E line with
    | DecodeError => ret tt
    | LoadRaises e => raise e
    | Loaded data => process_record E repo_path data
    end.

Fixpoint process_lines (E : env) (repo_path : string) (lines : list string)
  : M unit :=
  match lines with
  | [] => ret tt
  | line :: rest =>
      process_line E repo_path line ;;; process_lines E repo_path rest
  end.

Definition run (E : env) (argv : list string) : M CompletedProcess :=
  emit (EvRun argv) ;;; lift (subprocess_run E argv).

Definition argv_v3 (repo_path : string) : list string :=
  ["trufflehog"; "filesystem"; "--path"; repo_path; "--json"].

Definition argv_v2 (repo_path : string) : list string :=
  ["trufflehog"; "filesystem"; repo_path; "--json"].

Definition path_flag_signal : string := "unknown long flag '--path'".

(** The condition of the retry. *)
Definition wants_retry (r : CompletedProcess) : bool :=
  negb (returncode r =? 0) && contains path_flag_signal (stderr r).

(** The two invocations. *)
Definition invoke_detector (E : env) (repo_path : string)
  : M CompletedProcess :=
  r <- run E (argv_v3 repo_path) ;;
  if wants_retry r then run E (argv_v2 repo_path) else ret r.

Definition not_found_report : report :=
  {| agent := "credential_scan";
     score := 0;
     details :=
       [[("error",
          PStr "Trufflehog not found. Is it installed and in PATH?")]] |}.

Definition failed_report (e : exn) : report :=
  {| agent := "credential_scan";
     score := 0;
     details :=
       [[("error", PStr ("Trufflehog scan failed: " ++ exn_msg e))]] |}.

Definition sentinel : dict := [("info", PStr "No secrets found")].

(** The statements after the [try]. *)
Definition make_report (fs : list dict) : report :=
  {| agent := "credential_scan";
     score := Z.min (Z.of_nat (length fs)) 25;
     details := match fs with [] => [sentinel] | _ => firstn 20 fs end |}.

(** The [try] block; [None] when it runs to its end, [Some r] when one of
    its [except] clauses returns [r]. *)
Definition scan_body (E : env) (repo_path : string) : M (option report) :=
  try_except
    (r <- invoke_detector E repo_path ;;
     process_lines E repo_path (splitlines (stdout r)) ;;;
     ret None)
    (fun e => is_Exception (exn_cls e))
    (fun e =>
       if exn_class_eqb (exn_cls e) FileNotFoundError
       then ret (Some not_found_report)
       else ret (Some (failed_report e))).

Definition run_credential_scan_agent (E : env) (repo_path : string)
  : M report :=
  set_findings [] ;;;
  early <- scan_body E repo_path ;;
  match early with
  | Some r => ret r
  | None => fs <- get_findings ;; ret (make_report fs)
  end.

(** ** scan_github_repo *)

Definition tempfile_mkdtemp (E : env) : M string :=
  emit EvMkdtemp ;;; lift (mkdtemp E).

Definition repo_clone_from (E : env) (url path : string) : M unit :=
  emit (EvClone url path) ;;;
  match clone_from E url path with
  | Some e => raise e
  | None => ret tt
  end.

(** [shutil.rmtree(path, ignore_errors=...)] *)
Definition shutil_rmtree (E : env) (path : string) (ignore_errors : bool)
  : M unit :=
  emit (EvRmtree path) ;;;
  match rmtree_error E path with
  | Some e => if ignore_errors then ret tt else raise e
  | None => ret tt
  end.

Definition scan_github_repo (E : env) (repo_url : string) : M report :=
  temp_dir <- tempfile_mkdtemp E ;;
  try_finally
    (let repo_path := path_join temp_dir "repo" in
     repo_clone_from E repo_url repo_path ;;;
     run_credential_scan_agent E repo_path)
    (shutil_rmtree E temp_dir true).

(** ** Notions used in the statements *)

(** [needle] occurs in [hay] as a literal substring. *)
Definition is_substring (needle hay : string) : Prop :=
  exists before after, hay = before ++ needle ++ after.

(** The actions one turn of the walk performs on an entry it passes. *)
Definition visit_events (ent : dir_entry) : list event :=
  EvIsFile (entry_path ent)
  :: match entry_state ent with
     | Regular _ _ => [EvOpen (entry_path ent)]
     | _ => []
     end.

(** The failures the specification lists as skipped: a permission error,
    a directory in place of a file, text that cannot be decoded. *)
Definition listed_failure (e : exn) : bool :=
  match exn_cls e with
  | PermissionError | IsADirectoryError | UnicodeDecodeError => true
  | _ => false
  end.

(** Every failure the entry can raise is one of the listed ones. *)
Definition benign (ent : dir_entry) : bool :=
  match entry_state ent with
  | StatRaises e => listed_failure e
  | NotRegular => true
  | Regular _ (Some e) => listed_failure e
  | Regular _ None => true
  end.

(** The lines the program can read from an entry. *)
Definition lines_of (ent : dir_entry) : list string :=
  match entry_state ent with
  | Regular lines _ => lines
  | _ => []
  end.

Definition is_locate (ev : event) : bool :=
  match ev with EvLocate _ _ => true | _ => false end.

Definition is_run (ev : event) : bool :=
  match ev with EvRun _ => true | _ => false end.

Definition is_fs (ev : event) : bool :=
  match ev with EvRglob _ | EvIsFile _ | EvOpen _ => true | _ => false end.

(** Number of invocations of [locate_secret_in_repo] in a log. *)
Definition locate_calls (tr : list event) : nat :=
  length (filter is_locate tr).

(** The detector invocations of a log, in order. *)
Definition runs (tr : list event) : list event := filter is_run tr.

(** A field of a record is present: the key is there and not [null]. *)
Definition present (v : pyval) : bool :=
  match v with PNone => false | _ => true end.

(** What [json.loads] makes of a line the loop does not skip. *)
Definition decode (E : env) (line : string) : option pyval :=
  let line := strip line in
  if (line =? "")%string then None
  else match json_loads E line with Loaded v => Some v | _ => None end.



(** [json.loads] raises something else than [JSONDecodeError] on the
    line. *)
Definition is_raising_line (E : env) (line : string) : bool :=
  let line := strip line in
  if (line =? "")%string then false
  else match json_loads E line with LoadRaises _ => true | _ => false end.

(** The parsed values of the lines that parse, in order. *)
Fixpoint records (E : env) (lines : list string) : list pyval :=
  match lines with
  | [] => []
  | line :: rest =>
      match decode E line with
      | Some v => v :: records E rest
      | None => records E rest
      end
  end.

Definition dict_or_missing (key : string) (kvs : dict) : bool :=
  match dict_lookup key kvs with
  | None | Some (PDict _) => true
  | Some _ => false
  end.

(** The result of the detector invocations. *)
Definition detector_result (E : env) (repo_path : string)
  : result CompletedProcess :=
  fst (invoke_detector E repo_path initial_state).

Definition detector_events (E : env) (repo_path : string) : list event :=
  trace (snd (invoke_detector E repo_path initial_state)).

(** The result of the loop over [lines], and what it appends and does. *)
Definition normalized (E : env) (repo_path : string) (lines : list string)
  : result unit * state :=
  process_lines E repo_path lines initial_state.

(** The value a record gives for [key]; [None] when the key is missing or
    the record is no object. *)
Definition field (data : pyval) (key : string) : pyval :=
  match data with
  | PDict kvs =>
      match dict_lookup key kvs with Some v => v | None => PNone end
  | _ => PNone
  end.

(** The value at [SourceMetadata.Data.key]; [None] when any step is
    missing. *)
Definition meta (data : pyval) (key : string) : pyval :=
  field (field (field data "SourceMetadata") "Data") key.

(** A record the loop body can read: an object whose [SourceMetadata], and
    [Data] inside it, are objects when given. *)
Definition readable (data : pyval) : bool :=
  match data with
  | PDict kvs =>
      match dict_lookup "SourceMetadata" kvs with
      | None => true
      | Some (PDict sm) => dict_or_missing "Data" sm
      | Some _ => false
      end
  | _ => false
  end.

(** The fallback rule, with Python's truth test: [file] or [line] is falsy,
    and [Raw] is truthy. *)
Definition search_wanted (data : pyval) : bool :=
  (negb (truthy (meta data "file")) || negb (truthy (meta data "line")))
  && truthy (field data "Raw").

(** The number, counted from [i], of the first line containing [needle]. *)
Fixpoint line_index (needle : string) (lines : list string) (i : Z)
  : option Z :=
  match lines with
  | [] => None
  | line :: rest =>
      if contains needle line then Some i
      else line_index needle rest (i + 1)
  end.

(** Some line that can be read from the entry contains [needle]. *)
Definition has_match (needle : string) (ent : dir_entry) : bool :=
  existsb (contains needle) (lines_of ent).

(** No entry met before the first match of [needle] fails with anything
    but a listed failure. *)
Fixpoint survives (needle : string) (ents : list dir_entry) : bool :=
  match ents with
  | [] => true
  | ent :: rest =>
      has_match needle ent || (benign ent && survives needle rest)
  end.

(** No entry yields a line, and none fails with anything but a listed
    failure. *)
Definition quiet (ents : list dir_entry) : bool :=
  forallb (fun ent =>
             benign ent && match lines_of ent with [] => true | _ => false end)
    ents.

(** The search for [raw] in [ents] returns instead of raising. *)
Definition search_returns (raw : pyval) (ents : list dir_entry) : bool :=
  match raw with
  | PStr needle => survives needle ents
  | _ => quiet ents
  end.

(** The first entry, in the order of the walk, with a line containing
    [needle], and the number (from 1) of its first such line; [None] for
    both when there is none. *)
Fixpoint first_match (needle : string) (ents : list dir_entry)
  : pyval * pyval :=
  match ents with
  | [] => (PNone, PNone)
  | ent :: rest =>
      match line_index needle (lines_of ent) 1 with
      | Some i => (PStr (entry_path ent), PInt i)
      | None => first_match needle rest
      end
  end.

(** The location recovered for [raw]. *)
Definition recovered (raw : pyval) (ents : list dir_entry)
  : pyval * pyval :=
  match raw with
  | PStr needle => first_match needle ents
  | _ => (PNone, PNone)
  end.

(** A record that can be read and whose search, if the fallback rule wants
    one, returns. *)
Definition record_ok (E : env) (repo_path : string) (data : pyval) : bool :=
  readable data
  && (negb (search_wanted data)
      || search_returns (field data "Raw") (rglob E repo_path)).

(** The finding of a record, in the words of the specification: the
    location the detector gave, or the recovered one when the fallback rule
    applies, with the detector's name and the raw text. *)
Definition finding_of (E : env) (repo_path : string) (data : pyval) : dict :=
  let loc := if search_wanted data
             then recovered (field data "Raw") (rglob E repo_path)
             else (meta data "file", meta data "line") in
  [("file", fst loc); ("line", snd loc);
   ("detector", field data "DetectorName"); ("raw", field data "Raw")].

(** The Report the specification describes for the findings [fs]. *)
Definition expected_report (fs : list dict) : report :=
  {| agent := "credential_scan";
     score := Z.min (Z.of_nat (length fs)) 25;
     details :=
       match fs with
       | [] => [[("info", PStr "No secrets found")]]
       | _ => firstn 20 fs
       end |}.

(** The text of an output whose lines are [lines], each ended by a line
    feed. *)
Fixpoint unlines (lines : list string) : string :=
  match lines with
  | [] => ""
  | line :: rest => line ++ String LF (unlines rest)
  end.

(** [s] holds no character that [str.splitlines] takes for a line
    boundary. *)
Fixpoint no_linebreak (s : string) : bool :=
  match s with
  | EmptyString => true
  | String c rest => negb (is_linebreak c) && no_linebreak rest
  end.

(** Every line of the output can be handled: [json.loads] raises nothing
    but [JSONDecodeError], and every parsed value is a record that can be
    read and searched for. *)
Definition lines_ok (E : env) (repo_path : string) (lines : list string)
  : bool :=
  forallb (fun line => negb (is_raising_line E line)) lines
  && forallb (record_ok E repo_path) (records E lines).

(** What [run_credential_scan_agent] returns once the loop over the lines
    has ended with [res] in state [s]. *)
Definition finish (out : result unit * state) : result report * state :=
  match out with
  | (inr _, s) => (inr (make_report (findings s)), s)
  | (inl e, s) =>
      if is_Exception (exn_cls e) then
        (inr (if exn_class_eqb (exn_cls e) FileNotFoundError
              then not_found_report else failed_report e), s)
      else (inl e, s)
  end.

Definition add_event (s : state) (ev : event) : state :=
  {| findings := findings s; trace := trace s ++ [ev] |}.

(** [s] extended by what a computation started in [initial_state] left. *)
Definition extend (s d : state) : state :=
  {| findings := findings s ++ findings d; trace := trace s ++ trace d |}.

(** A computation that only appends to the state and whose result does not
    depend on it. *)
Definition framed {A} (m : M A) : Prop :=
  forall s, m s = (fst (m initial_state), extend s (snd (m initial_state))).

(** Normalization runs to its end: the detector returned its output and
    the loop over its lines raised nothing. *)
Definition completes (E : env) (repo_path : string) : Prop :=
  exists out,
    detector_result E repo_path = inr out
    /\ fst (normalized E repo_path (splitlines (stdout out))) = inr tt.

(** The findings appended during normalization, whether or not it runs to
    its end. *)
Definition appended (E : env) (repo_path : string) : list dict :=
  match detector_result E repo_path with
  | inr out => findings (snd (normalized E repo_path (splitlines (stdout out))))
  | inl _ => []
  end.

(** [only P m]: every action [m] logs satisfies [P]. *)
Definition only (P : event -> bool) {A} (m : M A) : Prop :=
  forallb P (trace (snd (m initial_state))) = true.

Definition is_locate_or_fs (ev : event) : bool := is_locate ev || is_fs ev.

(** The state in which the loop over the lines starts. *)
Definition after_invocation (E : env) (repo : string) (s : state) : state :=
  {| findings := []; trace := trace s ++ detector_events E repo |}.

(** ** Sample environments *)

Module Sample.

Definition nl : string := String LF "".

(** A JSON string literal: [s] between double quotes. *)
Definition q (s : string) : string :=
  String "034"%char s ++ String "034"%char "".

(** [{"SourceMetadata": {"Data": {"file": "app/config.py", "line": 12}},
     "DetectorName": "AWS", "Raw": "AKIA1234"}] *)
Definition line_located : string :=
  "{" ++ q "SourceMetadata" ++ ": {" ++ q "Data" ++ ": {" ++ q "file" ++ ": "
  ++ q "app/config.py" ++ ", " ++ q "line" ++ ": 12}}, " ++ q "DetectorName"
  ++ ": " ++ q "AWS" ++ ", " ++ q "Raw" ++ ": " ++ q "AKIA1234" ++ "}".

Definition record_located : pyval :=
  PDict [("SourceMetadata",
          PDict [("Data",
                  PDict [("file", PStr "app/config.py");
                         ("line", PInt 12)])]);
         ("DetectorName", PStr "AWS");
         ("Raw", PStr "AKIA1234")].

(** [{"DetectorName": "Generic", "Raw": "SECRET123"}] *)
Definition line_unlocated : string :=
  "{" ++ q "DetectorName" ++ ": " ++ q "Generic" ++ ", " ++ q "Raw" ++ ": "
  ++ q "SECRET123" ++ "}".

Definition record_unlocated : pyval :=
  PDict [("DetectorName", PStr "Generic"); ("Raw", PStr "SECRET123")].

(** [{"SourceMetadata": {"Data": {"file": "", "line": 3}}, "Raw": "k3y"}] *)
Definition record_empty_file : pyval :=
  PDict [("SourceMetadata",
          PDict [("Data", PDict [("file", PStr ""); ("line", PInt 3)])]);
         ("Raw", PStr "k3y")].

(** [json.loads] on the lines the sample detectors print: the four texts
    below are the lines that parse, with the values Python gives them; the
    other lines printed are not JSON. *)
Definition loads (text : string) : loaded :=
  if (text =? "{}")%string then Loaded (PDict [])
  else if (text =? "42")%string then Loaded (PInt 42)
  else if (text =? line_located)%string then Loaded record_located
  else if (text =? line_unlocated)%string then Loaded record_unlocated
  else DecodeError.

(** A checkout with a directory, a file that cannot be opened and a file
    holding the secret on its seventh line. *)
Definition tree : list dir_entry :=
  [ {| entry_path := "repo/src"; entry_state := NotRegular |};
    {| entry_path := "repo/id_rsa";
       entry_state :=
         Regular [] (Some (Exn PermissionError
                             "[Errno 13] Permission denied: 'repo/id_rsa'")) |};
    {| entry_path := "repo/src/settings.py";
       entry_state :=
         Regular ["import os" ++ nl; nl; "DEBUG = False" ++ nl;
                  "HOST = 'db'" ++ nl; "PORT = 5432" ++ nl; nl;
                  "TOKEN = 'SECRET123'" ++ nl; "# SECRET123 again" ++ nl]
                 None |} ].

Definition completed (code : Z) (out err : string) : CompletedProcess :=
  {| returncode := code; stdout := out; stderr := err |}.

Definition make_env (run : list string -> exn + CompletedProcess) : env :=
  {| json_loads := loads;
     subprocess_run := run;
     rglob := fun _ => tree;
     mkdtemp := inr "/tmp/tmpk2";
     clone_from := fun _ _ => None;
     rmtree_error := fun _ => None |}.

(** The detector prints two findings around a line of plain text, and exits
    with a non-zero status. *)
Definition env_findings : env :=
  make_env (fun _ =>
    inr (completed 183
           (line_located ++ nl ++ "scan finished" ++ nl ++ nl
              ++ line_unlocated ++ nl)
           "")).

(** The detector prints nothing. *)
Definition env_clean : env := make_env (fun _ => inr (completed 0 "" "")).

(** The detector prints an object and then a bare number. *)
Definition env_number_line : env :=
  make_env (fun _ => inr (completed 0 ("{}" ++ nl ++ "42" ++ nl) "")).

(** The detector prints a bare number only. *)
Definition env_only_number : env :=
  make_env (fun _ => inr (completed 0 ("42" ++ nl) "")).

(** The detector prints thirty objects. *)
Definition env_thirty : env :=
  make_env (fun _ =>
    inr (completed 0 (String.concat "" (repeat ("{}" ++ nl) 30)) "")).

(** The finding of the record [{}]. *)
Definition bare_finding : dict :=
  [("file", PNone); ("line", PNone); ("detector", PNone); ("raw", PNone)].

(** The executable is not installed. *)
Definition env_no_tool : env :=
  make_env (fun _ =>
    inl (Exn FileNotFoundError
           "[Errno 2] No such file or directory: 'trufflehog'")).

(** An old command line: the flag is refused, the positional form works. *)
Definition env_old_cli : env :=
  make_env (fun argv =>
    if existsb (String.eqb "--path") argv
    then inr (completed 1 ""
                ("trufflehog: error: unknown long flag '--path', try --help"
                   ++ nl))
    else inr (completed 0 (line_located ++ nl) "")).

(** [{"SourceMetadata": null, "Raw": "k3y"}] *)
Definition record_null_metadata : pyval :=
  PDict [("SourceMetadata", PNone); ("Raw", PStr "k3y")].

(** [{"Raw": 5}] *)
Definition record_numeric_raw : pyval := PDict [("Raw", PInt 5)].

(** A checkout whose only file fails with an input/output error. *)
Definition env_io_error : env :=
  {| json_loads := loads;
     subprocess_run := fun _ => inr (completed 0 (line_unlocated ++ nl) "");
     rglob := fun _ =>
       [ {| entry_path := "repo/core";
            entry_state :=
              Regular [] (Some (Exn OSError
                                  "[Errno 5] Input/output error")) |} ];
     mkdtemp := inr "/tmp/tmpk2";
     clone_from := fun _ _ => None;
     rmtree_error := fun _ => None |}.

(** Cloning fails, and so does the deletion of the directory. *)
Definition env_clone_fails : env :=
  {| json_loads := loads;
     subprocess_run := fun _ => inr (completed 0 "" "");
     rglob := fun _ => tree;
     mkdtemp := inr "/tmp/tmpk2";
     clone_from := fun _ _ =>
       Some (Exn GitCommandError "Cmd('git') failed due to: exit code(128)");
     rmtree_error := fun _ =>
       Some (Exn PermissionError "[Errno 13] Permission denied") |}.

End Sample.

(** ** Notions used in the further properties *)

(** The exception that interrupts the [try] block, if any. *)
Definition failure (E : env) (repo_path : string) : option exn :=
  match detector_result E repo_path with
  | inl e => Some e
  | inr out =>
      match fst (normalized E repo_path (splitlines (stdout out))) with
      | inl e => Some e
      | inr _ => None
      end
  end.

(** The keys of a [dict], in insertion order. *)
Definition keys (d : dict) : list string := map fst d.

Definition finding_keys : list string := ["file"; "line"; "detector"; "raw"].

(** Every character of [s] is whitespace. *)
Fixpoint all_space (s : string) : bool :=
  match s with
  | EmptyString => true
  | String c rest => is_space c && all_space rest
  end.

(** The loop body reaches the fallback test for [data] and the test holds. *)
Definition fallback_applies (data : pyval) : bool :=
  match metadata_field data "file", metadata_field data "line",
        py_get data "Raw" PNone with
  | inr file, inr line_no, inr raw => needs_fallback file line_no raw
  | _, _, _ => false
  end.

Definition is_rmtree (ev : event) : bool :=
  match ev with EvRmtree _ => true | _ => false end.

(** [m] leaves the list of findings as it is. *)
Definition keeps_findings {A} (m : M A) : Prop :=
  findings (snd (m initial_state)) = [].

(** Some file of the listing yields at least one line. *)
Definition has_a_line (ents : list dir_entry) : bool :=
  existsb (fun ent => match lines_of ent with [] => false | _ => true end)
    ents.

Definition is_str (v : pyval) : bool :=
  match v with PStr _ => true | _ => false end.

(** No line that can be read from the entry contains [needle]. *)
Definition no_match (needle : string) (ent : dir_entry) : bool :=
  forallb (fun line => negb (contains needle line)) (lines_of ent).

(** The entry fails, with [e], when it is visited or once its lines are
    read. *)
Definition fails_with (e : exn) (ent : dir_entry) : bool :=
  match entry_state ent with
  | StatRaises e' | Regular _ (Some e') =>
      exn_class_eqb (exn_cls e') (exn_cls e)
      && (exn_msg e' =? exn_msg e)%string
  | _ => false
  end.

(** The exception [raw in line] raises for a [raw] that is no string. *)
Definition type_error (raw : pyval) : exn :=
  Exn TypeError
    ("'in <string>' requires string as left operand, not " ++ type_name raw).

(** The search events a record causes: one call, with its raw text, when
    the fallback applies. *)
Definition search_of (repo_path : string) (data : pyval) : event :=
  EvLocate repo_path (field data "Raw").

(** No parsed line of the detector's output needs the fallback. *)
Definition no_fallback_needed (E : env) (repo_path : string) : bool :=
  match detector_result E repo_path with
  | inr out =>
      forallb (fun data => negb (fallback_applies data))
        (records E (splitlines (stdout out)))
  | inl _ => true
  end.

Module More.

(** The detector is interrupted from the keyboard. *)
Definition env_interrupted : env :=
  Sample.make_env (fun _ => inl (Exn KeyboardInterrupt "")).

(** The detector prints a finding without location; the only file of the
    checkout vanishes between [is_file()] and [open]. *)
Definition env_vanished : env :=
  {| json_loads := Sample.loads;
     subprocess_run := fun _ =>
       inr (Sample.completed 0 (Sample.line_unlocated ++ Sample.nl) "");
     rglob := fun _ =>
       [ {| entry_path := "repo/build.log";
            entry_state :=
              Regular []
                (Some (Exn FileNotFoundError
                         "[Errno 2] No such file or directory: 'repo/build.log'")) |} ];
     mkdtemp := inr "/tmp/tmpk2";
     clone_from := fun _ _ => None;
     rmtree_error := fun _ => None |}.

(** No temporary directory can be made. *)
Definition env_no_tmp : env :=
  {| json_loads := Sample.loads;
     subprocess_run := fun _ => inr (Sample.completed 0 "" "");
     rglob := fun _ => Sample.tree;
     mkdtemp := inl (Exn OSError "[Errno 28] No space left on device");
     clone_from := fun _ _ => None;
     rmtree_error := fun _ => None |}.

(** [{"SourceMetadata": {"Data": {"file": "app/config.py"}},
     "DetectorName": "AWS", "Raw": "AKIA1234"}]: a file, no line, and a
    secret that no file of [Sample.tree] holds. *)
Definition record_file_only : pyval :=
  PDict [("SourceMetadata",
          PDict [("Data", PDict [("file", PStr "app/config.py")])]);
         ("DetectorName", PStr "AWS");
         ("Raw", PStr "AKIA1234")].

(** An integer of 4301 digits: [json.loads] raises [ValueError]. *)
Definition line_huge_integer : string := String.concat "" (repeat "9" 4301).

(** [{"Raw": "a?b"}] with the character U+0085 in the place of [?]. *)
Definition line_with_nel : string :=
  "{" ++ Sample.q "Raw" ++ ": " ++ Sample.q ("a" ++ String "133"%char "b")
  ++ "}".

(** [json.loads] on the lines of the environments below. *)
Definition loads_more (text : string) : loaded :=
  if (text =? line_huge_integer)%string
  then LoadRaises
         (Exn ValueError
            ("Exceeds the limit (4300 digits) for integer string conversion: "
               ++ "value has 4301 digits; use sys.set_int_max_str_digits() "
               ++ "to increase the limit"))
  else if (text =? line_with_nel)%string
  then Loaded (PDict [("Raw", PStr ("a" ++ String "133"%char "b"))])
  else Sample.loads text.

Definition env_printing (out : string) : env :=
  {| json_loads := loads_more;
     subprocess_run := fun _ => inr (Sample.completed 0 out "");
     rglob := fun _ => Sample.tree;
     mkdtemp := inr "/tmp/tmpk2";
     clone_from := fun _ _ => None;
     rmtree_error := fun _ => None |}.

(** The detector prints an object and then a huge integer. *)
Definition env_huge_integer : env :=
  env_printing ("{}" ++ Sample.nl ++ line_huge_integer ++ Sample.nl).

(** The detector prints one object, whose text holds U+0085. *)
Definition env_nel : env := env_printing (line_with_nel ++ Sample.nl).

End More.

(** * Properties *)

(** ** The monad: computations that only append *)

Lemma extend_initial_l (d : state) : extend initial_state d = d.
Proof. destruct d; reflexivity. Qed.

Lemma extend_initial_r (s : state) : extend s initial_state = s.
Proof. destruct s; unfold extend; simpl; now rewrite !app_nil_r. Qed.

Lemma extend_assoc (a b c : state) :
  extend (extend a b) c = extend a (extend b c).
Proof. unfold extend; simpl; now rewrite !app_assoc. Qed.

Lemma framed_ret {A} (a : A) : framed (ret a).
Proof. intros s; unfold ret; simpl; now rewrite extend_initial_r. Qed.

Lemma framed_raise {A} (e : exn) : framed (@raise A e).
Proof. intros s; unfold raise; simpl; now rewrite extend_initial_r. Qed.

Lemma framed_lift {A} (r : result A) : framed (lift r).
Proof. destruct r; [apply framed_raise | apply framed_ret]. Qed.

Lemma framed_emit (ev : event) : framed (emit ev).
Proof. intros s; unfold emit, extend; simpl; now rewrite app_nil_r. Qed.

Lemma framed_append_finding (d : dict) : framed (append_finding d).
Proof. intros s; unfold append_finding, extend; simpl; now rewrite app_nil_r. Qed.

Lemma framed_bind {A B} (m : M A) (k : A -> M B) :
  framed m -> (forall a, framed (k a)) -> framed (bind m k).
Proof.
  intros Hm Hk s. unfold bind. rewrite (Hm s).
  destruct (m initial_state) as [[e | a] d]; simpl; [reflexivity |].
  rewrite (Hk a (extend s d)), (Hk a d), extend_assoc. reflexivity.
Qed.

Lemma framed_try_except {A} (body : M A) handles (handler : exn -> M A) :
  framed body -> (forall e, framed (handler e)) ->
  framed (try_except body handles handler).
Proof.
  intros Hb Hh s. unfold try_except. rewrite (Hb s).
  destruct (body initial_state) as [[e | a] d]; simpl; [| reflexivity].
  destruct (handles e); [| reflexivity].
  rewrite (Hh e (extend s d)), (Hh e d), extend_assoc. reflexivity.
Qed.

Create HintDb framed discriminated.

#[local] Hint Resolve framed_ret framed_raise framed_lift framed_emit
  framed_append_finding : framed.

Ltac framed_step :=
  match goal with
  | |- framed (bind _ _) => apply framed_bind; [| intros ?]
  | |- framed (try_except _ _ _) => apply framed_try_except; [| intros ?]
  | |- framed (match ?x with _ => _ end) => destruct x
  | |- framed (if ?b then _ else _) => destruct b
  | |- framed _ => solve [auto with framed]
  end.

Ltac prove_framed := repeat framed_step.

Lemma framed_visit raw ent : framed (visit raw ent).
Proof. unfold visit. prove_framed. Qed.

#[local] Hint Resolve framed_visit : framed.

Lemma framed_walk raw ents : framed (walk raw ents).
Proof. induction ents as [| ent rest IH]; simpl; prove_framed. Qed.

#[local] Hint Resolve framed_walk : framed.

Lemma framed_locate E repo raw : framed (locate_secret_in_repo E repo raw).
Proof. unfold locate_secret_in_repo. prove_framed. Qed.

#[local] Hint Resolve framed_locate : framed.

Lemma framed_process_record E repo data :
  framed (process_record E repo data).
Proof. unfold process_record. prove_framed. Qed.

#[local] Hint Resolve framed_process_record : framed.

Lemma framed_process_line E repo line : framed (process_line E repo line).
Proof. unfold process_line. prove_framed. Qed.

#[local] Hint Resolve framed_process_line : framed.

Lemma framed_process_lines E repo lines :
  framed (process_lines E repo lines).
Proof. induction lines as [| line rest IH]; simpl; prove_framed. Qed.

Lemma framed_run E argv : framed (run E argv).
Proof. unfold run. prove_framed. Qed.

#[local] Hint Resolve framed_process_lines framed_run : framed.

Lemma framed_invoke_detector E repo : framed (invoke_detector E repo).
Proof. unfold invoke_detector. prove_framed. Qed.

(** ** Substrings *)

Lemma prefix_iff (p s : string) :
  String.prefix p s = true <-> exists t, s = p ++ t.
Proof.
  revert s. induction p as [| a p IH]; intros s; simpl.
  - split; [intros _; now exists s | now destruct s].
  - destruct s as [| b s].
    + split; [discriminate | intros [t Ht]; discriminate].
    + simpl. destruct (ascii_dec a b) as [-> | Hab].
      * rewrite IH. split; intros [t Ht]; exists t; simpl in *; congruence.
      * split; [discriminate | intros [t Ht]; simpl in Ht; congruence].
Qed.

Lemma contains_iff (needle hay : string) :
  contains needle hay = true <-> is_substring needle hay.
Proof.
  unfold is_substring. induction hay as [| c hay IH].
  - cbn [contains]. rewrite orb_false_r, prefix_iff. split.
    + intros [t Ht]. now exists "", t.
    + intros [before [after H]]. destruct before; [now exists after |].
      discriminate.
  - cbn [contains]. rewrite orb_true_iff, prefix_iff, IH. split.
    + intros [[t Ht] | [before [after H]]].
      * now exists "", t.
      * exists (String c before), after. simpl. now rewrite H.
    + intros [before [after H]]. destruct before as [| b before].
      * left. now exists after.
      * right. exists before, after. simpl in H. congruence.
Qed.

Lemma contains_false_iff (needle hay : string) :
  contains needle hay = false <-> ~ is_substring needle hay.
Proof.
  rewrite <- contains_iff. destruct (contains needle hay); split;
    congruence.
Qed.

(** ** The walk, for a string needle *)

Lemma scan_lines_str (needle : string) (lines : list string) (i : Z) :
  (scan_lines (PStr needle) i lines = inr None
   /\ forall l, In l lines -> ~ is_substring needle l)
  \/ (exists before line after,
        lines = (before ++ line :: after)%list
        /\ (forall l, In l before -> ~ is_substring needle l)
        /\ is_substring needle line
        /\ scan_lines (PStr needle) i lines
           = inr (Some (i + Z.of_nat (length before)))).
Proof.
  revert i. induction lines as [| line rest IH]; intros i.
  - left. split; [reflexivity | intros l []].
  - cbn [scan_lines py_in]. destruct (contains needle line) eqn:Hc.
    + right. exists [], line, rest.
      split; [reflexivity |]. split; [intros l [] |].
      split; [now apply contains_iff |].
      simpl. now rewrite Z.add_0_r.
    + apply contains_false_iff in Hc.
      destruct (IH (i + 1)) as [[Hs Hno] | (before & l & after & -> & Hb & Hl & Hs)].
      * left. split; [exact Hs |]. intros l [<- | Hin]; auto.
      * right. exists (line :: before), l, after.
        split; [reflexivity |].
        split; [intros l' [<- | Hin]; auto |]. split; [exact Hl |].
        rewrite Hs. do 2 f_equal. cbn [length]. lia.
Qed.

Lemma skipped_listed (e : exn) : skipped e = listed_failure e.
Proof. unfold skipped, listed_failure. now destruct (exn_cls e). Qed.

Lemma no_line_no_match (needle : string) (lines : list string) :
  (forall l, In l lines -> ~ is_substring needle l) ->
  existsb (contains needle) lines = false.
Proof.
  induction lines as [| line rest IH]; intros H; [reflexivity |].
  cbn [existsb]. rewrite IH by (intros l Hl; apply H; now right).
  rewrite orb_false_r. apply contains_false_iff. apply H. now left.
Qed.

Lemma match_in_lines (needle : string) (before : list string)
    (line : string) (after : list string) :
  is_substring needle line ->
  existsb (contains needle) (before ++ line :: after) = true.
Proof.
  intros H. rewrite existsb_app. cbn [existsb].
  apply contains_iff in H. rewrite H. now rewrite orb_true_r.
Qed.

Lemma visit_str (needle : string) (ent : dir_entry) (s : state) :
  has_match needle ent || benign ent = true ->
  visit (PStr needle) ent s
  = (inr match scan_lines (PStr needle) 1 (lines_of ent) with
         | inr (Some i) => Some (PStr (entry_path ent), PInt i)
         | _ => None
         end,
     {| findings := findings s; trace := trace s ++ visit_events ent |}).
Proof.
  destruct ent as [path st].
  unfold has_match, benign, lines_of, visit_events, visit.
  cbn [entry_state entry_path]. intros Hb.
  destruct st as [e | | lines failure].
  - cbn [existsb orb] in Hb. unfold try_except, bind, emit, raise. simpl.
    now rewrite skipped_listed, Hb.
  - reflexivity.
  - unfold try_except, bind, emit, lift. simpl.
    destruct (scan_lines_str needle lines 1)
      as [[Hs Hno] | (before & l & after & _ & _ & _ & Hs)]; rewrite Hs.
    + rewrite (no_line_no_match needle lines Hno) in Hb. cbn [orb] in Hb.
      destruct failure as [e |]; unfold raise, ret; simpl;
        rewrite <- ?app_assoc;
        [now rewrite skipped_listed, Hb | reflexivity].
    + unfold ret. simpl. now rewrite <- app_assoc.
Qed.


(** ** What a computation adds to the log *)

Lemma framed_run_from {A} (m : M A) (s : state) :
  framed m ->
  m s = (fst (m initial_state), extend s (snd (m initial_state))).
Proof. intros H; apply H. Qed.

Lemma only_ret P {A} (a : A) : only P (ret a).
Proof. reflexivity. Qed.

Lemma only_raise P {A} (e : exn) : only P (@raise A e).
Proof. reflexivity. Qed.

Lemma only_lift P {A} (r : result A) : only P (lift r).
Proof. now destruct r. Qed.

Lemma only_append_finding P d : only P (append_finding d).
Proof. reflexivity. Qed.

Lemma only_emit (P : event -> bool) ev : P ev = true -> only P (emit ev).
Proof. unfold only; simpl; intros ->; reflexivity. Qed.

Lemma only_bind P {A B} (m : M A) (k : A -> M B) :
  only P m -> (forall a, framed (k a)) -> (forall a, only P (k a)) ->
  only P (bind m k).
Proof.
  unfold only, bind. intros Hm Hf Hk.
  destruct (m initial_state) as [[e | a] d]; simpl in *; [exact Hm |].
  rewrite (Hf a d). simpl. rewrite forallb_app, Hm. apply Hk.
Qed.

Lemma only_try_except P {A} (body : M A) handles (handler : exn -> M A) :
  only P body -> (forall e, framed (handler e)) ->
  (forall e, only P (handler e)) ->
  only P (try_except body handles handler).
Proof.
  unfold only, try_except. intros Hb Hf Hh.
  destruct (body initial_state) as [[e | a] d]; simpl in *; [| exact Hb].
  destruct (handles e); [| exact Hb].
  rewrite (Hf e d). simpl. rewrite forallb_app, Hb. apply Hh.
Qed.

#[local] Hint Resolve only_ret only_raise only_lift only_append_finding
  : framed.

Ltac only_step :=
  match goal with
  | |- only _ (bind _ _) =>
      apply only_bind; [| intros ?; prove_framed | intros ?]
  | |- only _ (try_except _ _ _) =>
      apply only_try_except; [| intros ?; prove_framed | intros ?]
  | |- only _ (emit _) => apply only_emit; reflexivity
  | |- only _ (match ?x with _ => _ end) => destruct x
  | |- only _ (if ?b then _ else _) => destruct b
  | |- only _ _ => solve [auto with framed]
  end.

Ltac prove_only := repeat only_step.

Lemma only_visit raw ent : only is_fs (visit raw ent).
Proof. unfold visit. prove_only. Qed.

#[local] Hint Resolve only_visit : framed.

Lemma only_walk raw ents : only is_fs (walk raw ents).
Proof. induction ents as [| ent rest IH]; simpl; prove_only. Qed.

Lemma only_weaken (P Q : event -> bool) {A} (m : M A) :
  (forall ev, P ev = true -> Q ev = true) -> only P m -> only Q m.
Proof.
  unfold only. intros HPQ. generalize (trace (snd (m initial_state))).
  induction l as [| ev l IH]; simpl; [reflexivity |].
  rewrite !andb_true_iff. intros [Hev Hl]. auto.
Qed.

Lemma only_locate E repo raw :
  only is_locate_or_fs (locate_secret_in_repo E repo raw).
Proof.
  unfold locate_secret_in_repo. prove_only.
  apply only_weaken with (P := is_fs); [| apply only_walk].
  intros ev H. unfold is_locate_or_fs. rewrite H. apply orb_true_r.
Qed.

#[local] Hint Resolve only_locate : framed.

Lemma only_process_record E repo data :
  only is_locate_or_fs (process_record E repo data).
Proof. unfold process_record. prove_only. Qed.

#[local] Hint Resolve only_process_record : framed.

Lemma only_process_line E repo line :
  only is_locate_or_fs (process_line E repo line).
Proof. unfold process_line. prove_only. Qed.

#[local] Hint Resolve only_process_line : framed.

Lemma only_process_lines E repo lines :
  only is_locate_or_fs (process_lines E repo lines).
Proof. induction lines as [| line rest IH]; simpl; prove_only. Qed.

Lemma no_runs_among_locate_or_fs (tr : list event) :
  forallb is_locate_or_fs tr = true -> runs tr = [].
Proof.
  unfold runs. induction tr as [| ev tr IH]; simpl; [reflexivity |].
  rewrite andb_true_iff. intros [Hev Htr].
  destruct ev; try discriminate; simpl; auto.
Qed.

Lemma no_locate_among_fs (tr : list event) :
  forallb is_fs tr = true -> filter is_locate tr = [].
Proof.
  induction tr as [| ev tr IH]; simpl; [reflexivity |].
  rewrite andb_true_iff. intros [Hev Htr].
  destruct ev; try discriminate; simpl; auto.
Qed.

(** ** The shape of a run *)

Lemma invoke_detector_from E repo (s : state) :
  invoke_detector E repo s
  = (detector_result E repo,
     {| findings := findings s;
        trace := trace s ++ detector_events E repo |}).
Proof.
  rewrite (framed_run_from _ s (framed_invoke_detector E repo)).
  unfold detector_result, detector_events, extend.
  assert (H : findings (snd (invoke_detector E repo initial_state)) = []).
  { unfold invoke_detector, bind, run, emit, lift. simpl.
    destruct (subprocess_run E (argv_v3 repo)) as [e | r]; simpl;
      [reflexivity |].
    destruct (wants_retry r); simpl; [| reflexivity].
    now destruct (subprocess_run E (argv_v2 repo)). }
  rewrite H, app_nil_r. reflexivity.
Qed.

Lemma run_unfold E repo (s : state) :
  run_credential_scan_agent E repo s
  = match detector_result E repo with
    | inl e => finish (inl e, after_invocation E repo s)
    | inr out =>
        finish (process_lines E repo (splitlines (stdout out))
                  (after_invocation E repo s))
    end.
Proof.
  unfold run_credential_scan_agent, scan_body, bind at 1 2.
  unfold set_findings at 1. unfold try_except, bind at 1.
  rewrite invoke_detector_from. cbn [findings trace].
  fold (after_invocation E repo s).
  destruct (detector_result E repo) as [e | out]; cbn [finish].
  - destruct (is_Exception (exn_cls e)); [| reflexivity].
    now destruct (exn_class_eqb (exn_cls e) FileNotFoundError).
  - unfold bind.
    destruct (process_lines E repo (splitlines (stdout out))
                (after_invocation E repo s)) as [[e | []] s1];
      cbn [finish]; [| reflexivity].
    destruct (is_Exception (exn_cls e)); [| reflexivity].
    now destruct (exn_class_eqb (exn_cls e) FileNotFoundError).
Qed.

Lemma process_lines_from E repo lines (s : state) :
  process_lines E repo lines s
  = (fst (normalized E repo lines),
     extend s (snd (normalized E repo lines))).
Proof. apply (framed_process_lines E repo lines). Qed.

Lemma detector_events_cases E repo :
  detector_events E repo
  = match subprocess_run E (argv_v3 repo) with
    | inl _ => [EvRun (argv_v3 repo)]
    | inr r =>
        if wants_retry r
        then [EvRun (argv_v3 repo); EvRun (argv_v2 repo)]
        else [EvRun (argv_v3 repo)]
    end.
Proof.
  unfold detector_events, invoke_detector, bind, run, emit, lift. simpl.
  destruct (subprocess_run E (argv_v3 repo)) as [e | r]; simpl;
    [reflexivity |].
  destruct (wants_retry r); simpl; [| reflexivity].
  now destruct (subprocess_run E (argv_v2 repo)).
Qed.

Lemma detector_result_cases E repo :
  detector_result E repo
  = match subprocess_run E (argv_v3 repo) with
    | inl e => inl e
    | inr r => if wants_retry r then subprocess_run E (argv_v2 repo)
               else inr r
    end.
Proof.
  unfold detector_result, invoke_detector, bind, run, emit, lift. simpl.
  destruct (subprocess_run E (argv_v3 repo)) as [e | r]; simpl;
    [reflexivity |].
  destruct (wants_retry r); simpl; [| reflexivity].
  now destruct (subprocess_run E (argv_v2 repo)).
Qed.

(** ** LocationRecovery *)

Lemma truthy_nonempty (needle : string) :
  needle <> "" -> truthy (PStr needle) = true.
Proof. intros H. simpl. destruct needle; [congruence | reflexivity]. Qed.

(** C7. With an absent ([None]) or empty needle, [locate_secret_in_repo]
    returns not-found ([(None, None)]) at once: the call is the only thing
    logged, so the log gains no walk, no [is_file] and no [open]. *)
Theorem locate_without_needle E (root : string) (needle : pyval) (s : state) :
  needle = PNone \/ needle = PStr "" ->
  locate_secret_in_repo E root needle s
  = (inr (PNone, PNone), add_event s (EvLocate root needle))
  /\ filter is_fs (trace (snd (locate_secret_in_repo E root needle s)))
     = filter is_fs (trace s).
Proof.
  intros [-> | ->]; (split; [reflexivity |]); simpl;
    rewrite filter_app; simpl; apply app_nil_r.
Qed.

Lemma locate_without_needle_witness :
  locate_secret_in_repo Sample.env_findings "repo" (PStr "") initial_state
  = (inr (PNone, PNone),
     add_event initial_state (EvLocate "repo" (PStr "")))
  /\ filter is_fs
       (trace (snd (locate_secret_in_repo Sample.env_findings "repo"
                      (PStr "") initial_state)))
     = filter is_fs (trace initial_state).
Proof.
  apply (locate_without_needle Sample.env_findings "repo" (PStr "")
           initial_state).
  right. reflexivity.
Defined.



(** ** The fallback rule *)

Lemma locate_events E repo raw :
  exists tl,
    trace (snd (locate_secret_in_repo E repo raw initial_state))
    = EvLocate repo raw :: tl
    /\ forallb is_fs tl = true.
Proof.
  unfold locate_secret_in_repo, bind, emit. cbn [fst snd].
  destruct (truthy raw); cbn [negb].
  - rewrite (framed_run_from _ _ (framed_walk raw (rglob E repo))).
    cbn [snd extend trace findings initial_state app].
    eexists. split; [reflexivity |]. cbn [forallb is_fs andb].
    apply only_walk.
  - exists []. split; reflexivity.
Qed.

Lemma locate_calls_app (a b : list event) :
  locate_calls (a ++ b) = (locate_calls a + locate_calls b)%nat.
Proof. unfold locate_calls. now rewrite filter_app, length_app. Qed.

(** C4, as the code has it. For a record whose fields can be read,
    [locate_secret_in_repo] is called, once and with the record's [Raw],
    exactly when ([file] is falsy or [line] is falsy) and [Raw] is truthy,
    where falsy is Python's: [None] or missing, an empty string, zero,
    [False], an empty list or object. Nothing else is logged for the record.
    So it is never called when [Raw] is missing or empty, and never for a
    record whose [file] and [line] are both truthy. *)
Theorem fallback_exactly_when_falsy E (repo : string)
    (data file line_no raw : pyval) (s : state) :
  metadata_field data "file" = inr file ->
  metadata_field data "line" = inr line_no ->
  py_get data "Raw" PNone = inr raw ->
  let called := (negb (truthy file) || negb (truthy line_no)) && truthy raw in
  let s' := snd (process_record E repo data s) in
  (exists tl,
      forallb is_fs tl = true
      /\ trace s'
         = (trace s ++ (if called then EvLocate repo raw :: tl else []))%list)
  /\ locate_calls (trace s')
     = (locate_calls (trace s) + (if called then 1 else 0))%nat.
Proof.
  intros Hfile Hline Hraw called s'.
  assert (Htrace : exists tl,
             forallb is_fs tl = true
             /\ trace s'
                = (trace s
                   ++ (if called then EvLocate repo raw :: tl else []))%list).
  { subst s' called.
    rewrite (framed_run_from _ s (framed_process_record E repo data)).
    cbn [snd extend trace]. unfold process_record, bind.
    rewrite Hfile, Hline, Hraw. cbn [lift ret]. unfold needs_fallback.
    destruct data as [| | | | | | kvs]; try discriminate.
    destruct ((negb (truthy file) || negb (truthy line_no)) && truthy raw).
    - destruct (locate_events E repo raw) as (tl & Htl & Hfs).
      exists tl. split; [exact Hfs |]. f_equal. rewrite <- Htl.
      destruct (locate_secret_in_repo E repo raw initial_state)
        as [[e | loc] s1]; reflexivity.
    - exists []. split; reflexivity. }
  split; [exact Htrace |].
  destruct Htrace as (tl & Hfs & ->). rewrite locate_calls_app. f_equal.
  destruct called; [| reflexivity].
  unfold locate_calls. cbn [filter is_locate length].
  now rewrite (no_locate_among_fs tl Hfs).
Qed.

Lemma fallback_exactly_when_falsy_witness :
  (exists tl,
      forallb is_fs tl = true
      /\ trace (snd (process_record Sample.env_findings "repo"
                       Sample.record_unlocated initial_state))
         = ([] ++ EvLocate "repo" (PStr "SECRET123") :: tl)%list)
  /\ locate_calls
       (trace (snd (process_record Sample.env_findings "repo"
                      Sample.record_unlocated initial_state)))
     = 1%nat.
Proof.
  apply (fallback_exactly_when_falsy Sample.env_findings "repo"
           Sample.record_unlocated PNone PNone (PStr "SECRET123")
           initial_state); reflexivity.
Defined.

(** C4 as stated fails: a record can give both [file] and [line] and still
    be searched for. In
    [{"SourceMetadata": {"Data": {"file": "", "line": 3}}, "Raw": "k3y"}]
    both fields are present and [Raw] is not empty, yet the record is
    passed to [locate_secret_in_repo]. *)
Lemma fallback_with_file_and_line_present :
  metadata_field Sample.record_empty_file "file" = inr (PStr "")
  /\ metadata_field Sample.record_empty_file "line" = inr (PInt 3)
  /\ present (PStr "") = true
  /\ present (PInt 3) = true
  /\ trace (snd (process_record Sample.env_findings "repo"
                   Sample.record_empty_file initial_state))
     = [EvLocate "repo" (PStr "k3y"); EvRglob "repo";
        EvIsFile "repo/src"; EvIsFile "repo/id_rsa"; EvOpen "repo/id_rsa";
        EvIsFile "repo/src/settings.py"; EvOpen "repo/src/settings.py"]
  /\ locate_calls
       (trace (snd (process_record Sample.env_findings "repo"
                      Sample.record_empty_file initial_state)))
     = 1%nat.
Proof. repeat split; reflexivity. Qed.

(** ** Lines that are skipped, lines that abort *)



(** ** The Report *)

Lemma make_report_bounds (fs : list dict) :
  0 <= score (make_report fs) <= 25
  /\ (1 <= length (details (make_report fs)) <= 20)%nat.
Proof.
  unfold make_report. cbn [score details]. split; [lia |].
  destruct fs as [| d fs]; [cbn; lia |].
  rewrite length_firstn. cbn [length]. lia.
Qed.

Lemma error_report_bounds (r : report) :
  r = not_found_report \/ (exists e, r = failed_report e) ->
  score r = 0 /\ length (details r) = 1%nat.
Proof. intros [-> | [e ->]]; split; reflexivity. Qed.

Lemma findings_after_run E repo (s : state) :
  findings (snd (run_credential_scan_agent E repo s)) = appended E repo.
Proof.
  rewrite run_unfold. unfold appended.
  destruct (detector_result E repo) as [e | out].
  - cbn [finish]. now destruct (is_Exception (exn_cls e)).
  - rewrite process_lines_from.
    destruct (normalized E repo (splitlines (stdout out))) as [[e | []] d];
      cbn [finish fst snd]; [now destruct (is_Exception (exn_cls e)) |];
      reflexivity.
Qed.

(** The Report of a run: built from the findings when normalization runs to
    its end, an error Report otherwise. *)
Lemma run_report_cases E repo (s : state) (r : report) (s' : state) :
  run_credential_scan_agent E repo s = (inr r, s') ->
  (completes E repo /\ r = make_report (appended E repo))
  \/ (~ completes E repo
      /\ (r = not_found_report \/ exists e, r = failed_report e)).
Proof.
  rewrite run_unfold. unfold completes, appended.
  destruct (detector_result E repo) as [e | out].
  - cbn [finish]. intros H. right. split.
    + intros (out & Hout & _). discriminate.
    + destruct (is_Exception (exn_cls e)); [| discriminate].
      injection H as <- _.
      destruct (exn_class_eqb (exn_cls e) FileNotFoundError); eauto.
  - rewrite process_lines_from.
    destruct (normalized E repo (splitlines (stdout out))) as [[e | []] d]
      eqn:Hn; cbn [finish fst snd].
    + intros H. right. split.
      * intros (out' & Hout & Hres). injection Hout as <-.
        rewrite Hn in Hres. discriminate.
      * destruct (is_Exception (exn_cls e)); [| discriminate].
        injection H as <- _.
        destruct (exn_class_eqb (exn_cls e) FileNotFoundError); eauto.
    + intros H. injection H as <- _. left. split; [| reflexivity].
      exists out. split; [reflexivity |]. now rewrite Hn.
Qed.

(** C1, as the code has it. The score of every Report lies between 0 and
    25. When normalization runs to its end, the score is the smaller of 25
    and the number of all findings appended, a number taken from the whole
    list and not from the details (which keep 20 entries at most). The final
    value of [findings] is always the list of findings appended. *)
Theorem score_is_capped_count E (repo : string) (s : state)
    (r : report) (s' : state) :
  run_credential_scan_agent E repo s = (inr r, s') ->
  0 <= score r <= 25
  /\ findings s' = appended E repo
  /\ (completes E repo ->
      score r = Z.min (Z.of_nat (length (appended E repo))) 25).
Proof.
  intros Hrun. pose proof (findings_after_run E repo s) as Hfs.
  rewrite Hrun in Hfs. cbn [snd] in Hfs.
  destruct (run_report_cases E repo s r s' Hrun) as [[Hc ->] | [Hc Herr]].
  - split; [apply make_report_bounds |]. split; [exact Hfs |].
    intros _. reflexivity.
  - destruct (error_report_bounds r Herr) as [-> _].
    split; [lia |]. split; [exact Hfs |]. intros H. contradiction.
Qed.

Lemma score_is_capped_count_witness :
  let E := Sample.env_thirty in
  let r := {| agent := "credential_scan";
              score := 25;
              details := repeat Sample.bare_finding 20 |} in
  0 <= score r <= 25
  /\ repeat Sample.bare_finding 30 = appended E "repo"
  /\ (completes E "repo" ->
      score r = Z.min (Z.of_nat (length (appended E "repo"))) 25).
Proof.
  exact (score_is_capped_count Sample.env_thirty "repo" initial_state
           {| agent := "credential_scan";
              score := 25;
              details := repeat Sample.bare_finding 20 |}
           {| findings := repeat Sample.bare_finding 30;
              trace := [EvRun (argv_v3 "repo")] |}
           eq_refl).
Defined.

(** C1 as stated fails when normalization is cut short. On the lines [{}]
    and [42] one finding has been appended when the second line raises; the
    Report returned has score 0, not [min(1, 25)]. *)
Lemma score_ignores_findings_before_abort :
  let E := Sample.env_number_line in
  let out := run_credential_scan_agent E "repo" initial_state in
  findings (snd out) = [Sample.bare_finding]
  /\ appended E "repo" = [Sample.bare_finding]
  /\ (exists r, fst out = inr r
                /\ score r = 0
                /\ Z.min (Z.of_nat (length (findings (snd out)))) 25 = 1).
Proof.
  split; [reflexivity |]. split; [reflexivity |].
  eexists. split; [reflexivity |]. split; reflexivity.
Qed.

(** C2, as the code has it. The details of every Report have at most 20
    entries. When normalization runs to its end, they are the first 20
    findings, or, when no finding was appended, exactly the one sentinel
    entry, which has the key [info] and none of [file], [line], [detector],
    [raw]. *)
Theorem details_are_capped E (repo : string) (s : state)
    (r : report) (s' : state) :
  run_credential_scan_agent E repo s = (inr r, s') ->
  (length (details r) <= 20)%nat
  /\ (completes E repo ->
      (appended E repo = [] -> details r = [sentinel])
      /\ (appended E repo <> [] -> details r = firstn 20 (appended E repo)))
  /\ has_key "info" sentinel = true
  /\ has_key "file" sentinel = false
  /\ has_key "line" sentinel = false
  /\ has_key "detector" sentinel = false
  /\ has_key "raw" sentinel = false.
Proof.
  intros Hrun.
  destruct (run_report_cases E repo s r s' Hrun) as [[Hc ->] | [Hc Herr]].
  - split; [apply make_report_bounds |].
    split; [| repeat split; reflexivity].
    intros _. unfold make_report. cbn [details].
    destruct (appended E repo); split; congruence.
  - destruct (error_report_bounds r Herr) as [_ Hlen].
    split; [lia |]. split; [| repeat split; reflexivity].
    intros H. contradiction.
Qed.

Lemma details_are_capped_witness :
  let E := Sample.env_clean in
  let r := {| agent := "credential_scan";
              score := 0;
              details := [[("info", PStr "No secrets found")]] |} in
  (length (details r) <= 20)%nat
  /\ (completes E "repo" ->
      (appended E "repo" = [] -> details r = [sentinel])
      /\ (appended E "repo" <> [] ->
          details r = firstn 20 (appended E "repo")))
  /\ has_key "info" sentinel = true
  /\ has_key "file" sentinel = false
  /\ has_key "line" sentinel = false
  /\ has_key "detector" sentinel = false
  /\ has_key "raw" sentinel = false.
Proof.
  exact (details_are_capped Sample.env_clean "repo" initial_state
           {| agent := "credential_scan";
              score := 0;
              details := [[("info", PStr "No secrets found")]] |}
           {| findings := []; trace := [EvRun (argv_v3 "repo")] |}
           eq_refl).
Defined.

(** C2 as stated fails when normalization is cut short before any finding.
    On the single line [42] no finding is appended, and the details are one
    entry with the key [error] and without the key [info]. *)
Lemma no_sentinel_after_abort :
  let E := Sample.env_only_number in
  let out := run_credential_scan_agent E "repo" initial_state in
  findings (snd out) = []
  /\ appended E "repo" = []
  /\ (exists r, fst out = inr r
                /\ details r
                   = [[("error",
                        PStr ("Trufflehog scan failed: "
                                ++ "'int' object has no attribute 'get'"))]]
                /\ forallb (has_key "info") (details r) = false).
Proof.
  split; [reflexivity |]. split; [reflexivity |].
  eexists. split; [reflexivity |]. split; reflexivity.
Qed.

Lemma try_finally_result {A} (body : M A) (final : M unit) (s : state)
    (a : A) (s' : state) :
  try_finally body final s = (inr a, s') ->
  exists s1, body s = (inr a, s1).
Proof.
  unfold try_finally. destruct (body s) as [r s1].
  destruct (final s1) as [[e | []] s2]; [discriminate |].
  intros H. injection H as -> _. eauto.
Qed.

Lemma scan_github_repo_report E url (s : state) (r : report) (s' : state) :
  scan_github_repo E url s = (inr r, s') ->
  exists repo s0 s1, run_credential_scan_agent E repo s0 = (inr r, s1).
Proof.
  unfold scan_github_repo, bind at 1.
  destruct (tempfile_mkdtemp E s) as [[e | temp_dir] s0]; [discriminate |].
  intros H. apply try_finally_result in H as [s1 H].
  unfold bind in H.
  destruct (repo_clone_from E url (path_join temp_dir "repo") s0)
    as [[e | []] s2]; [discriminate |].
  eauto.
Qed.

(** C10. Every Report returned, by [run_credential_scan_agent] or through
    [scan_github_repo], on every path (tool not found, scan failed, no
    finding, some findings), has at least 1 and at most 20 entries in its
    details. *)
Theorem details_never_empty E (target : string) (s : state)
    (r : report) (s' : state) :
  run_credential_scan_agent E target s = (inr r, s')
  \/ scan_github_repo E target s = (inr r, s') ->
  (1 <= length (details r) <= 20)%nat.
Proof.
  assert (Hrun : forall repo s0 s1,
             run_credential_scan_agent E repo s0 = (inr r, s1) ->
             (1 <= length (details r) <= 20)%nat).
  { intros repo s0 s1 H.
    destruct (run_report_cases E repo s0 r s1 H) as [[_ ->] | [_ Herr]].
    - apply make_report_bounds.
    - destruct (error_report_bounds r Herr) as [_ ->]. lia. }
  intros [H | H].
  - exact (Hrun _ _ _ H).
  - destruct (scan_github_repo_report E target s r s' H)
      as (repo & s0 & s1 & H'). exact (Hrun _ _ _ H').
Qed.

Lemma details_never_empty_witness :
  (1 <= length (repeat Sample.bare_finding 20) <= 20)%nat.
Proof.
  exact (details_never_empty Sample.env_thirty "repo" initial_state
           {| agent := "credential_scan";
              score := 25;
              details := repeat Sample.bare_finding 20 |}
           {| findings := repeat Sample.bare_finding 30;
              trace := [EvRun (argv_v3 "repo")] |}
           (or_introl eq_refl)).
Defined.

(** ** The detector invocation *)

Lemma finish_state (out : result unit * state) :
  snd (finish out) = snd out.
Proof.
  destruct out as [[e | u] st]; cbn [finish]; [| reflexivity].
  now destruct (is_Exception (exn_cls e)).
Qed.

Lemma trace_after_run E repo (s : state) :
  trace (snd (run_credential_scan_agent E repo s))
  = (trace s ++ detector_events E repo
       ++ match detector_result E repo with
          | inr out => trace (snd (normalized E repo (splitlines (stdout out))))
          | inl _ => []
          end)%list.
Proof.
  rewrite run_unfold.
  destruct (detector_result E repo) as [e | out]; rewrite finish_state.
  - cbn [snd after_invocation trace]. now rewrite app_nil_r.
  - rewrite process_lines_from. cbn [snd extend after_invocation trace].
    now rewrite app_assoc.
Qed.

(** C6. When the executable cannot be found ([subprocess.run] raises
    [FileNotFoundError] on the first invocation), the scan returns the
    Report with agent [credential_scan], score 0 and one details entry whose
    only key is [error] and whose message says the tool was not found. The
    log holds that single invocation: no retry, no search, and no finding
    was appended. *)
Theorem missing_tool_report E (repo : string) (s : state) (e : exn) :
  subprocess_run E (argv_v3 repo) = inl e ->
  exn_cls e = FileNotFoundError ->
  run_credential_scan_agent E repo s
  = (inr not_found_report,
     {| findings := []; trace := trace s ++ [EvRun (argv_v3 repo)] |})
  /\ agent not_found_report = "credential_scan"
  /\ score not_found_report = 0
  /\ (exists msg,
         details not_found_report = [[("error", PStr msg)]]
         /\ is_substring "not found" msg).
Proof.
  intros Hrun Hcls. split; [| split; [reflexivity | split; [reflexivity |]]].
  - rewrite run_unfold. unfold after_invocation.
    rewrite detector_result_cases, detector_events_cases, Hrun.
    cbn [finish]. now rewrite Hcls.
  - eexists. split; [reflexivity |]. now apply contains_iff.
Qed.

Lemma missing_tool_report_witness :
  run_credential_scan_agent Sample.env_no_tool "repo" initial_state
  = (inr not_found_report,
     {| findings := []; trace := [] ++ [EvRun (argv_v3 "repo")] |})
  /\ agent not_found_report = "credential_scan"
  /\ score not_found_report = 0
  /\ (exists msg,
         details not_found_report = [[("error", PStr msg)]]
         /\ is_substring "not found" msg).
Proof.
  exact (missing_tool_report Sample.env_no_tool "repo" initial_state
           (Exn FileNotFoundError
              "[Errno 2] No such file or directory: 'trufflehog'")
           eq_refl eq_refl).
Defined.

(** ** The workspace *)



(** ** Worked examples *)

Example strip_example :
  strip (" " ++ String "009"%char "{} " ++ Sample.nl) = "{}".
Proof. reflexivity. Qed.

Example splitlines_example :
  splitlines ("a" ++ String CR (String LF "b") ++ Sample.nl ++ Sample.nl)
  = ["a"; "b"; ""]
  /\ splitlines "" = []
  /\ splitlines "ab" = ["ab"].
Proof. repeat split; reflexivity. Qed.

(** A failing clone, with a directory that cannot be deleted either: the
    clone's exception reaches the caller. *)
Example clone_failure_propagates :
  scan_github_repo Sample.env_clone_fails "https://example.org/team/app.git"
    initial_state
  = (inl (Exn GitCommandError "Cmd('git') failed due to: exit code(128)"),
     {| findings := [];
        trace := [EvMkdtemp;
                  EvClone "https://example.org/team/app.git"
                    "/tmp/tmpk2/repo";
                  EvRmtree "/tmp/tmpk2"] |}).
Proof. reflexivity. Qed.

(** Thirty findings: the score stops at 25 and the details at 20. *)
Example thirty_findings :
  exists r s',
    run_credential_scan_agent Sample.env_thirty "repo" initial_state
    = (inr r, s')
    /\ length (findings s') = 30%nat
    /\ score r = 25
    /\ length (details r) = 20%nat.
Proof.
  eexists _, _. split; [vm_compute; reflexivity |].
  repeat split; reflexivity.
Qed.

(** A record without location whose secret is on line 7 of a file. *)
Example recovered_location :
  finding_of Sample.env_findings "repo" Sample.record_unlocated
  = [("file", PStr "repo/src/settings.py"); ("line", PInt 7);
     ("detector", PStr "Generic"); ("raw", PStr "SECRET123")].
Proof. reflexivity. Qed.

(** No output at all: the sentinel. *)
Example nothing_found :
  fst (run_credential_scan_agent Sample.env_clean "repo" initial_state)
  = inr {| agent := "credential_scan";
           score := 0;
           details := [[("info", PStr "No secrets found")]] |}.
Proof. reflexivity. Qed.

(** Other ways for a record to stop the loop: metadata that is not an
    object, a raw value that is not a string, a file failing with a class
    the search does not skip. *)
Example null_metadata_raises :
  fst (process_record Sample.env_findings "repo"
         Sample.record_null_metadata initial_state)
  = inl (Exn AttributeError "'NoneType' object has no attribute 'get'").
Proof. reflexivity. Qed.

Example numeric_raw_raises :
  fst (process_record Sample.env_findings "repo"
         Sample.record_numeric_raw initial_state)
  = inl (Exn TypeError
           "'in <string>' requires string as left operand, not int").
Proof. reflexivity. Qed.

Example io_error_raises :
  fst (locate_secret_in_repo Sample.env_io_error "repo" (PStr "SECRET123")
         initial_state)
  = inl (Exn OSError "[Errno 5] Input/output error")
  /\ fst (run_credential_scan_agent Sample.env_io_error "repo" initial_state)
     = inr (failed_report (Exn OSError "[Errno 5] Input/output error")).
Proof. split; reflexivity. Qed.

(** * Further properties *)

(** ** Failures of a scan *)

Lemma run_result_by_failure E repo (s : state) :
  fst (run_credential_scan_agent E repo s)
  = match failure E repo with
    | Some e =>
        if is_Exception (exn_cls e)
        then inr (if exn_class_eqb (exn_cls e) FileNotFoundError
                  then not_found_report else failed_report e)
        else inl e
    | None => inr (make_report (appended E repo))
    end.
Proof.
  rewrite run_unfold. unfold failure, appended.
  destruct (detector_result E repo) as [e | out].
  - cbn [finish]. now destruct (is_Exception (exn_cls e)).
  - rewrite process_lines_from.
    destruct (normalized E repo (splitlines (stdout out))) as [[e | []] d];
      cbn [finish fst snd]; [| reflexivity].
    now destruct (is_Exception (exn_cls e)).
Qed.

(** X1. Whatever raises an [Exception] inside the [try] block, be it the
    detector invocation or the handling of a line, the scan returns a
    score-0 Report with a single [error] entry, and the findings appended
    so far are not in it. The class decides the message: a
    [FileNotFoundError] from anywhere, also from a file that vanished while
    a location was searched, gives the tool-not-found text; any other class
    gives the scan-failed text followed by [str(e)]. *)
Theorem exception_becomes_error_report E (repo : string) (s : state)
    (e : exn) :
  failure E repo = Some e ->
  is_Exception (exn_cls e) = true ->
  (exn_cls e = FileNotFoundError ->
   fst (run_credential_scan_agent E repo s) = inr not_found_report)
  /\ (exn_cls e <> FileNotFoundError ->
      fst (run_credential_scan_agent E repo s)
      = inr {| agent := "credential_scan";
               score := 0;
               details :=
                 [[("error",
                    PStr ("Trufflehog scan failed: " ++ exn_msg e))]] |}).
Proof.
  intros Hf He. rewrite run_result_by_failure, Hf, He. split.
  - intros ->. reflexivity.
  - intros Hcls.
    destruct (exn_cls e); try reflexivity. contradiction.
Qed.

Lemma exception_becomes_error_report_witness :
  let e := Exn FileNotFoundError
             "[Errno 2] No such file or directory: 'repo/build.log'" in
  (exn_cls e = FileNotFoundError ->
   fst (run_credential_scan_agent More.env_vanished "repo" initial_state)
   = inr not_found_report)
  /\ (exn_cls e <> FileNotFoundError ->
      fst (run_credential_scan_agent More.env_vanished "repo" initial_state)
      = inr {| agent := "credential_scan";
               score := 0;
               details :=
                 [[("error",
                    PStr ("Trufflehog scan failed: " ++ exn_msg e))]] |}).
Proof.
  exact (exception_becomes_error_report More.env_vanished "repo"
           initial_state
           (Exn FileNotFoundError
              "[Errno 2] No such file or directory: 'repo/build.log'")
           eq_refl eq_refl).
Defined.

(** X2. [run_credential_scan_agent] never raises an [Exception]: what it
    raises is not an [Exception] (a [KeyboardInterrupt], say) and is the
    very exception that interrupted the [try] block. *)
Theorem scan_raises_no_exception E (repo : string) (s : state)
    (e : exn) (s' : state) :
  run_credential_scan_agent E repo s = (inl e, s') ->
  is_Exception (exn_cls e) = false /\ failure E repo = Some e.
Proof.
  intros Hrun. pose proof (run_result_by_failure E repo s) as H.
  rewrite Hrun in H. cbn [fst] in H.
  destruct (failure E repo) as [e' |]; [| discriminate].
  destruct (is_Exception (exn_cls e')) eqn:He'; [discriminate |].
  injection H as ->. auto.
Qed.

Lemma scan_raises_no_exception_witness :
  is_Exception KeyboardInterrupt = false
  /\ failure More.env_interrupted "repo" = Some (Exn KeyboardInterrupt "").
Proof.
  exact (scan_raises_no_exception More.env_interrupted "repo" initial_state
           (Exn KeyboardInterrupt "")
           {| findings := []; trace := [EvRun (argv_v3 "repo")] |}
           eq_refl).
Defined.

(** ** The loop over the lines *)

Lemma process_lines_app E repo (l1 l2 : list string) (s : state) :
  process_lines E repo (l1 ++ l2) s
  = (process_lines E repo l1 ;;; process_lines E repo l2) s.
Proof.
  revert s. induction l1 as [| line rest IH]; intros s; [reflexivity |].
  cbn [app process_lines]. unfold bind in *.
  destruct (process_line E repo line s) as [[e | []] s1]; [reflexivity |].
  apply IH.
Qed.

(** X3. The loop handles the lines one after the other and stops at the
    first that raises. For an output cut in two: if the first part raises,
    the second part is never looked at; otherwise the result is that of the
    second part, and the findings and the log are those of the first part
    followed by those of the second. *)
Theorem normalization_of_two_parts E (repo : string) (l1 l2 : list string) :
  normalized E repo (l1 ++ l2)
  = match fst (normalized E repo l1) with
    | inl e => normalized E repo l1
    | inr _ =>
        (fst (normalized E repo l2),
         extend (snd (normalized E repo l1)) (snd (normalized E repo l2)))
    end.
Proof.
  unfold normalized. rewrite process_lines_app. unfold bind.
  destruct (process_lines E repo l1 initial_state) as [[e | []] s1];
    [reflexivity |].
  cbn [fst snd]. apply (framed_process_lines E repo l2).
Qed.

(** ** Whitespace around a line *)

Lemma lstrip_spaces_app (ws s : string) :
  all_space ws = true -> lstrip (ws ++ s) = lstrip s.
Proof.
  induction ws as [| c ws IH]; [reflexivity |].
  cbn [all_space append lstrip]. rewrite andb_true_iff.
  intros [-> Hws]. auto.
Qed.

Lemma lstrip_spaces (ws : string) : all_space ws = true -> lstrip ws = "".
Proof.
  induction ws as [| c ws IH]; [reflexivity |].
  cbn [all_space lstrip]. rewrite andb_true_iff.
  intros [-> Hws]. auto.
Qed.

Lemma rstrip_spaces (ws : string) : all_space ws = true -> rstrip ws = "".
Proof.
  induction ws as [| c ws IH]; [reflexivity |].
  cbn [all_space rstrip]. rewrite andb_true_iff.
  intros [-> Hws]. now rewrite (IH Hws).
Qed.

Lemma rstrip_app_spaces (s ws : string) :
  all_space ws = true -> rstrip (s ++ ws) = rstrip s.
Proof.
  intros Hws. induction s as [| c s IH].
  - now apply rstrip_spaces.
  - cbn [append rstrip]. now rewrite IH.
Qed.

Lemma strip_app_spaces (s ws : string) :
  all_space ws = true -> strip (s ++ ws) = strip s.
Proof.
  intros Hws. unfold strip. induction s as [| c s IH].
  - cbn [append]. now rewrite (lstrip_spaces ws Hws).
  - cbn [append lstrip]. destruct (is_space c); [exact IH |].
    now apply (rstrip_app_spaces (String c s)).
Qed.

Lemma strip_padded (ws1 line ws2 : string) :
  all_space ws1 = true -> all_space ws2 = true ->
  strip (ws1 ++ line ++ ws2) = strip line.
Proof.
  intros H1 H2. unfold strip at 1. rewrite (lstrip_spaces_app _ _ H1).
  now apply strip_app_spaces.
Qed.

(** X4. Whitespace before and after a line never matters: a line padded
    with any whitespace (spaces, tabs, carriage returns, ...) is handled
    exactly as the line itself, and a line of whitespace only does
    nothing. *)
Theorem padding_is_ignored E (repo : string) (ws1 line ws2 : string)
    (s : state) :
  all_space ws1 = true ->
  all_space ws2 = true ->
  process_line E repo (ws1 ++ line ++ ws2) s = process_line E repo line s
  /\ process_line E repo ws1 s = (inr tt, s).
Proof.
  intros H1 H2. unfold process_line.
  rewrite (strip_padded ws1 line ws2 H1 H2). split; [reflexivity |].
  unfold strip. now rewrite (lstrip_spaces ws1 H1).
Qed.

Lemma padding_is_ignored_witness :
  process_line Sample.env_findings "repo"
    (("  " ++ String "009"%char "")
       ++ Sample.line_unlocated ++ String CR (String LF ""))
    initial_state
  = process_line Sample.env_findings "repo" Sample.line_unlocated
      initial_state
  /\ process_line Sample.env_findings "repo" ("  " ++ String "009"%char "")
       initial_state
     = (inr tt, initial_state).
Proof.
  exact (padding_is_ignored Sample.env_findings "repo"
           ("  " ++ String "009"%char "") Sample.line_unlocated
           (String CR (String LF "")) initial_state eq_refl eq_refl).
Defined.

(** ** The search, beyond the skipped failures *)

Lemma exn_class_eqb_eq (a b : exn_class) :
  exn_class_eqb a b = true -> a = b.
Proof. destruct a, b; simpl; congruence. Qed.

Lemma fails_with_state (e : exn) (ent : dir_entry) :
  fails_with e ent = true ->
  entry_state ent = StatRaises e
  \/ exists lines, entry_state ent = Regular lines (Some e).
Proof.
  unfold fails_with.
  assert (Heq : forall e', exn_class_eqb (exn_cls e') (exn_cls e)
                           && (exn_msg e' =? exn_msg e)%string = true ->
                           e' = e).
  { intros [c m]. destruct e as [c0 m0]. cbn. rewrite andb_true_iff.
    intros [Hc Hm]. apply exn_class_eqb_eq in Hc.
    apply String.eqb_eq in Hm. congruence. }
  destruct (entry_state ent) as [e' | | lines [e' |]]; try discriminate;
    intros H; apply Heq in H; subst; eauto.
Qed.

Lemma scan_lines_no_match (needle : string) (lines : list string) (i : Z) :
  forallb (fun line => negb (contains needle line)) lines = true ->
  scan_lines (PStr needle) i lines = inr None.
Proof.
  revert i. induction lines as [| line rest IH]; intros i; [reflexivity |].
  cbn [forallb scan_lines py_in]. rewrite andb_true_iff. intros [Hl Hrest].
  apply negb_true_iff in Hl. rewrite Hl. now apply IH.
Qed.

Lemma walk_past_prefix (needle : string) (pre rest : list dir_entry)
    (s : state) :
  forallb benign pre = true ->
  forallb (no_match needle) pre = true ->
  walk (PStr needle) (pre ++ rest) s
  = walk (PStr needle) rest
      {| findings := findings s;
         trace := trace s ++ flat_map visit_events pre |}.
Proof.
  revert s. induction pre as [| ent pre IH]; intros s Hb Hn.
  - cbn. rewrite app_nil_r. now destruct s.
  - cbn [forallb] in Hb, Hn. apply andb_true_iff in Hb as [Hb1 Hb2].
    apply andb_true_iff in Hn as [Hn1 Hn2].
    assert (Hv : has_match needle ent || benign ent = true)
      by (rewrite Hb1; apply orb_true_r).
    cbn [app walk]. unfold bind. rewrite (visit_str needle ent s Hv).
    rewrite (scan_lines_no_match needle _ 1 Hn1).
    rewrite (IH _ Hb2 Hn2). cbn [findings trace flat_map].
    now rewrite <- app_assoc.
Qed.

Lemma visit_fails (needle : string) (ent : dir_entry) (e : exn)
    (s : state) :
  fails_with e ent = true ->
  skipped e = false ->
  no_match needle ent = true ->
  visit (PStr needle) ent s
  = (inl e,
     {| findings := findings s; trace := trace s ++ visit_events ent |}).
Proof.
  intros Hfail Hskip Hno. unfold no_match, lines_of in Hno.
  unfold visit, visit_events, try_except, bind, emit.
  destruct (fails_with_state e ent Hfail) as [Hst | [lines Hst]];
    rewrite Hst in *; cbn.
  - now rewrite Hskip.
  - rewrite (scan_lines_no_match needle lines 1 Hno). cbn.
    now rewrite Hskip, <- app_assoc.
Qed.

(** X5. The search gives up on the first failure of a class it does not
    skip: when an entry, reached before any line containing the needle,
    fails with an exception other than a permission error, a directory in
    place of a file or undecodable text (a vanished file, an input/output
    error), [locate_secret_in_repo] raises that exception and visits
    nothing after that entry. *)
Theorem search_stops_at_other_failure E (root needle : string)
    (pre : list dir_entry) (ent : dir_entry) (post : list dir_entry)
    (e : exn) (s : state) :
  needle <> "" ->
  rglob E root = (pre ++ ent :: post)%list ->
  forallb benign pre = true ->
  forallb (no_match needle) (pre ++ [ent]) = true ->
  fails_with e ent = true ->
  skipped e = false ->
  locate_secret_in_repo E root (PStr needle) s
  = (inl e,
     {| findings := findings s;
        trace := trace s
                 ++ EvLocate root (PStr needle) :: EvRglob root
                    :: flat_map visit_events (pre ++ [ent]) |}).
Proof.
  intros Hneedle Htree Hb Hn Hfail Hskip.
  rewrite forallb_app in Hn. apply andb_true_iff in Hn as [Hpre Hent].
  cbn [forallb] in Hent. rewrite andb_true_r in Hent.
  unfold locate_secret_in_repo, bind, emit. cbn [fst snd].
  rewrite (truthy_nonempty needle Hneedle), Htree. cbn [negb findings trace].
  rewrite (walk_past_prefix needle pre (ent :: post) _ Hb Hpre).
  cbn [findings trace walk]. unfold bind.
  rewrite (visit_fails needle ent e _ Hfail Hskip Hent).
  cbn [findings trace]. rewrite flat_map_app. cbn [flat_map].
  rewrite app_nil_r. f_equal. f_equal. now rewrite <- !app_assoc.
Qed.

Lemma search_stops_at_other_failure_witness :
  locate_secret_in_repo More.env_vanished "repo" (PStr "SECRET123")
    initial_state
  = (inl (Exn FileNotFoundError
            "[Errno 2] No such file or directory: 'repo/build.log'"),
     {| findings := [];
        trace := [] ++ [EvLocate "repo" (PStr "SECRET123"); EvRglob "repo";
                        EvIsFile "repo/build.log";
                        EvOpen "repo/build.log"] |}).
Proof.
  apply (search_stops_at_other_failure More.env_vanished "repo" "SECRET123"
           []
           {| entry_path := "repo/build.log";
              entry_state :=
                Regular []
                  (Some (Exn FileNotFoundError
                           "[Errno 2] No such file or directory: 'repo/build.log'")) |}
           []
           (Exn FileNotFoundError
              "[Errno 2] No such file or directory: 'repo/build.log'")
           initial_state);
    [discriminate | reflexivity ..].
Defined.

Lemma py_in_non_str (raw : pyval) (line : string) :
  is_str raw = false -> py_in raw line = inl (type_error raw).
Proof. destruct raw; try discriminate; reflexivity. Qed.

Lemma visit_non_str (raw : pyval) (ent : dir_entry) (s : state) :
  is_str raw = false ->
  benign ent = true ->
  fst (visit raw ent s)
  = match lines_of ent with
    | [] => inr None
    | _ => inl (type_error raw)
    end.
Proof.
  intros Hraw. destruct ent as [path st].
  unfold benign, lines_of, visit, try_except, bind, emit.
  cbn [entry_state entry_path]. intros Hb.
  destruct st as [e | | [| line rest] failure]; cbn.
  - now rewrite skipped_listed, Hb.
  - reflexivity.
  - destruct failure as [e |]; cbn;
      [now rewrite skipped_listed, Hb | reflexivity].
  - rewrite (py_in_non_str raw line Hraw). reflexivity.
Qed.

Lemma walk_non_str (raw : pyval) (ents : list dir_entry) (s : state) :
  is_str raw = false ->
  forallb benign ents = true ->
  fst (walk raw ents s)
  = if has_a_line ents then inl (type_error raw) else inr (PNone, PNone).
Proof.
  intros Hraw. revert s. induction ents as [| ent rest IH]; intros s Hb;
    [reflexivity |].
  cbn [forallb] in Hb. apply andb_true_iff in Hb as [Hb1 Hb2].
  cbn [walk]. unfold bind, has_a_line. cbn [existsb].
  pose proof (visit_non_str raw ent s Hraw Hb1) as Hv.
  destruct (visit raw ent s) as [r s1]. cbn [fst] in Hv. subst r.
  destruct (lines_of ent); cbn [orb]; [| reflexivity].
  apply (IH s1 Hb2).
Qed.



(** ** What the fallback puts into a finding *)

(** The file the detector gave is lost when the search finds nothing. *)
Example known_file_is_lost :
  findings (snd (process_record Sample.env_findings "repo"
                   More.record_file_only initial_state))
  = [[("file", PNone); ("line", PNone); ("detector", PStr "AWS");
      ("raw", PStr "AKIA1234")]].
Proof. reflexivity. Qed.

(** ** The shapes of a Report *)

Lemma visit_keeps_findings raw ent (s : state) :
  findings (snd (visit raw ent s)) = findings s.
Proof.
  unfold visit, try_except, bind, emit, lift.
  destruct (entry_state ent) as [e | | lines failure]; cbn.
  - now destruct (skipped e).
  - reflexivity.
  - destruct (scan_lines raw 1 lines) as [e | [i |]]; cbn.
    + now destruct (skipped e).
    + reflexivity.
    + destruct failure as [e |]; cbn; [now destruct (skipped e) |].
      reflexivity.
Qed.

Lemma walk_keeps_findings raw ents (s : state) :
  findings (snd (walk raw ents s)) = findings s.
Proof.
  revert s. induction ents as [| ent rest IH]; intros s; [reflexivity |].
  cbn [walk]. unfold bind.
  pose proof (visit_keeps_findings raw ent s) as Hv.
  destruct (visit raw ent s) as [[e | [found |]] s1]; cbn [snd] in *;
    try exact Hv.
  now rewrite IH.
Qed.

Lemma locate_keeps_findings E repo raw (s : state) :
  findings (snd (locate_secret_in_repo E repo raw s)) = findings s.
Proof.
  unfold locate_secret_in_repo, bind, emit. cbn [fst snd].
  destruct (truthy raw); cbn [negb]; [| reflexivity].
  now rewrite walk_keeps_findings.
Qed.

Lemma process_record_appends E repo data (s : state) :
  findings (snd (process_record E repo data s)) = findings s
  \/ exists d,
       keys d = finding_keys
       /\ findings (snd (process_record E repo data s))
          = (findings s ++ [d])%list.
Proof.
  unfold process_record, bind.
  destruct (metadata_field data "file") as [e | file]; [now left |].
  destruct (metadata_field data "line") as [e | line_no]; [now left |].
  destruct (py_get data "Raw" PNone) as [e | raw]; [now left |].
  cbn [lift ret raise].
  destruct (needs_fallback file line_no raw).
  - pose proof (locate_keeps_findings E repo raw s) as Hl.
    destruct (locate_secret_in_repo E repo raw s) as [[e | loc] s1];
      cbn [snd] in *; [now left |].
    destruct (py_get data "DetectorName" PNone) as [e | det]; cbn;
      [now left |].
    right. eexists. split; [| now rewrite Hl]. reflexivity.
  - cbn. destruct (py_get data "DetectorName" PNone) as [e | det]; cbn;
      [now left |].
    right. eexists. split; [| reflexivity]. reflexivity.
Qed.

Lemma process_lines_appends E repo lines (s : state) :
  Forall (fun d => keys d = finding_keys) (findings s) ->
  Forall (fun d => keys d = finding_keys)
    (findings (snd (process_lines E repo lines s))).
Proof.
  revert s. induction lines as [| line rest IH]; intros s Hs; [exact Hs |].
  cbn [process_lines]. unfold bind.
  assert (Hline : Forall (fun d => keys d = finding_keys)
                    (findings (snd (process_line E repo line s)))).
  { unfold process_line.
    destruct ((strip line =? "")%string); [exact Hs |].
    destruct (json_loads E (strip line)) as [data | | e];
      [| exact Hs | exact Hs].
    destruct (process_record_appends E repo data s) as [-> | (d & Hd & ->)];
      [exact Hs |].
    apply Forall_app. split; [exact Hs |]. now constructor. }
  destruct (process_line E repo line s) as [[e | []] s1]; cbn [snd] in *;
    [exact Hline |].
  now apply IH.
Qed.

Lemma appended_are_findings E repo :
  Forall (fun d => keys d = finding_keys) (appended E repo).
Proof.
  unfold appended. destruct (detector_result E repo) as [e | out];
    [constructor |].
  apply process_lines_appends. constructor.
Qed.

Lemma Forall_firstn_keys (n : nat) (fs : list dict) :
  Forall (fun d => keys d = finding_keys) fs ->
  Forall (fun d => keys d = finding_keys) (firstn n fs).
Proof.
  intros H. rewrite <- (firstn_skipn n fs) in H.
  now apply Forall_app in H.
Qed.

(** X8. Every Report has the agent [credential_scan] and one of three
    shapes. With score 0 its details are a single entry that is no finding:
    the sentinel, or an entry whose only key is [error]. With a score of 1
    or more every details entry is a finding with exactly the keys [file],
    [line], [detector], [raw], in that order, and there are
    [min(score, 20)] of them. So the score is positive exactly when the
    details hold findings. *)
Theorem report_shapes E (repo : string) (s : state) (r : report)
    (s' : state) :
  run_credential_scan_agent E repo s = (inr r, s') ->
  agent r = "credential_scan"
  /\ ((score r = 0
       /\ (details r = [sentinel]
           \/ exists msg, details r = [[("error", PStr msg)]]))
      \/ (1 <= score r
          /\ Forall (fun d => keys d = ["file"; "line"; "detector"; "raw"])
               (details r)
          /\ Z.of_nat (length (details r)) = Z.min (score r) 20)).
Proof.
  intros Hrun.
  destruct (run_report_cases E repo s r s' Hrun)
    as [[_ ->] | [_ [-> | [e ->]]]].
  - split; [reflexivity |]. pose proof (appended_are_findings E repo) as Hfs.
    unfold make_report. cbn [score details].
    destruct (appended E repo) as [| d fs] eqn:Happ.
    + left. split; [reflexivity | now left].
    + right. split; [cbn [length]; lia |]. split.
      * now apply Forall_firstn_keys.
      * rewrite length_firstn. cbn [length]. lia.
  - split; [reflexivity |]. left. split; [reflexivity |]. right.
    eexists. reflexivity.
  - split; [reflexivity |]. left. split; [reflexivity |]. right.
    eexists. reflexivity.
Qed.

Lemma report_shapes_witness :
  let r := {| agent := "credential_scan";
              score := 25;
              details := repeat Sample.bare_finding 20 |} in
  agent r = "credential_scan"
  /\ ((score r = 0
       /\ (details r = [sentinel]
           \/ exists msg, details r = [[("error", PStr msg)]]))
      \/ (1 <= score r
          /\ Forall (fun d => keys d = ["file"; "line"; "detector"; "raw"])
               (details r)
          /\ Z.of_nat (length (details r)) = Z.min (score r) 20)).
Proof.
  exact (report_shapes Sample.env_thirty "repo" initial_state
           {| agent := "credential_scan";
              score := 25;
              details := repeat Sample.bare_finding 20 |}
           {| findings := repeat Sample.bare_finding 30;
              trace := [EvRun (argv_v3 "repo")] |}
           eq_refl).
Defined.

(** ** Searches and records *)

Lemma field_of_get (data : pyval) (key : string) (v : pyval) :
  py_get data key PNone = inr v -> field data key = v.
Proof.
  destruct data; try discriminate. cbn [py_get field].
  intros H. now injection H.
Qed.

Lemma process_record_trace E repo (data : pyval) :
  exists tl,
    forallb is_fs tl = true
    /\ trace (snd (process_record E repo data initial_state))
       = if fallback_applies data then search_of repo data :: tl else [].
Proof.
  unfold process_record, fallback_applies, search_of, bind.
  destruct (metadata_field data "file") as [e | file];
    [exists []; split; reflexivity |].
  destruct (metadata_field data "line") as [e | line_no];
    [exists []; split; reflexivity |].
  destruct (py_get data "Raw" PNone) as [e | raw] eqn:Hraw;
    [exists []; split; reflexivity |].
  rewrite (field_of_get data "Raw" raw Hraw). cbn [lift ret].
  destruct (needs_fallback file line_no raw).
  - destruct (locate_events E repo raw) as (tl & Htl & Hfs).
    exists tl. split; [exact Hfs |]. rewrite <- Htl.
    destruct (locate_secret_in_repo E repo raw initial_state)
      as [[e | loc] s1]; [reflexivity |].
    now destruct (py_get data "DetectorName" PNone).
  - exists []. split; [reflexivity |].
    now destruct (py_get data "DetectorName" PNone).
Qed.

Lemma process_line_trace E repo (line : string) :
  exists tl,
    forallb is_fs tl = true
    /\ trace (snd (process_line E repo line initial_state))
       = match decode E line with
         | Some data =>
             if fallback_applies data then search_of repo data :: tl else []
         | None => []
         end.
Proof.
  unfold process_line, decode.
  destruct ((strip line =? "")%string); [exists []; split; reflexivity |].
  destruct (json_loads E (strip line)) as [data | | e];
    [apply process_record_trace | exists []; split; reflexivity ..].
Qed.

Lemma normalized_cons E repo (line : string) (rest : list string) :
  normalized E repo (line :: rest)
  = match fst (process_line E repo line initial_state) with
    | inl e => process_line E repo line initial_state
    | inr _ =>
        (fst (normalized E repo rest),
         extend (snd (process_line E repo line initial_state))
           (snd (normalized E repo rest)))
    end.
Proof.
  unfold normalized. cbn [process_lines]. unfold bind.
  destruct (process_line E repo line initial_state) as [[e | []] s1];
    [reflexivity |].
  cbn [fst snd]. apply (framed_process_lines E repo rest).
Qed.

Lemma searches_of_line E repo (line : string) :
  filter is_locate (trace (snd (process_line E repo line initial_state)))
  = map (search_of repo) (filter fallback_applies (records E [line])).
Proof.
  destruct (process_line_trace E repo line) as (tl & Hfs & ->).
  cbn [records]. destruct (decode E line) as [data |]; [| reflexivity].
  cbn [filter]. destruct (fallback_applies data); [| reflexivity].
  cbn [filter is_locate search_of map].
  now rewrite (no_locate_among_fs tl Hfs).
Qed.

Lemma records_cons E (line : string) (rest : list string) :
  records E (line :: rest) = (records E [line] ++ records E rest)%list.
Proof. cbn [records]. now destruct (decode E line). Qed.

(** X9. The search is called at most once for a parsed line, and only for
    records to which the fallback applies: the number of calls during
    normalization never exceeds the number of such records; when the loop
    runs to its end the calls are exactly these records' raw texts, one call
    each, in the order of the lines. *)
Theorem searches_follow_records E (repo : string) (lines : list string) :
  (locate_calls (trace (snd (normalized E repo lines)))
   <= length (filter fallback_applies (records E lines)))%nat
  /\ (fst (normalized E repo lines) = inr tt ->
      filter is_locate (trace (snd (normalized E repo lines)))
      = map (fun data => EvLocate repo (field data "Raw"))
          (filter fallback_applies (records E lines))).
Proof.
  unfold locate_calls. induction lines as [| line rest [IHle IHeq]].
  - split; [cbn; lia | reflexivity].
  - rewrite normalized_cons, records_cons, filter_app.
    pose proof (searches_of_line E repo line) as Hline.
    destruct (process_line E repo line initial_state) as [[e | []] s1];
      cbn [fst snd] in *.
    + split; [| discriminate].
      rewrite Hline, length_map, length_app. lia.
    + cbn [extend trace]. rewrite filter_app, Hline. split.
      * rewrite !length_app, length_map. lia.
      * intros Hrest. rewrite map_app. f_equal. now apply IHeq.
Qed.

Lemma no_fallback_no_trace E repo (lines : list string) :
  forallb (fun data => negb (fallback_applies data)) (records E lines)
  = true ->
  trace (snd (normalized E repo lines)) = [].
Proof.
  induction lines as [| line rest IH]; [reflexivity |].
  rewrite records_cons, forallb_app, andb_true_iff. intros [Hline Hrest].
  rewrite normalized_cons.
  destruct (process_line_trace E repo line) as (tl & _ & Htl).
  assert (Hnil : trace (snd (process_line E repo line initial_state)) = []).
  { rewrite Htl. cbn [records] in Hline.
    destruct (decode E line) as [data |]; [| reflexivity].
    cbn [forallb] in Hline. rewrite andb_true_r in Hline.
    apply negb_true_iff in Hline. now rewrite Hline. }
  destruct (process_line E repo line initial_state) as [[e | []] s1];
    cbn [fst snd] in *; [exact Hnil |].
  cbn [extend trace]. now rewrite Hnil, (IH Hrest).
Qed.

(** X10. A scan reads the repository only for the fallback: when no parsed
    line of the output needs it (each record has a truthy [file] and
    [line], or a falsy [Raw], or cannot be read at all), the scan walks no
    directory and opens no file; all it does is run the detector. *)
Theorem no_fallback_no_file_access E (repo : string) (s : state) :
  no_fallback_needed E repo = true ->
  trace (snd (run_credential_scan_agent E repo s))
  = (trace s ++ detector_events E repo)%list
  /\ forallb is_run (detector_events E repo) = true
  /\ filter is_fs (trace (snd (run_credential_scan_agent E repo s)))
     = filter is_fs (trace s).
Proof.
  intros Hno. unfold no_fallback_needed in Hno.
  assert (Hruns : forallb is_run (detector_events E repo) = true).
  { rewrite detector_events_cases.
    destruct (subprocess_run E (argv_v3 repo)) as [e | r]; [reflexivity |].
    now destruct (wants_retry r). }
  assert (Htrace : trace (snd (run_credential_scan_agent E repo s))
                   = (trace s ++ detector_events E repo)%list).
  { rewrite trace_after_run.
    destruct (detector_result E repo) as [e | out];
      [now rewrite app_nil_r |].
    now rewrite (no_fallback_no_trace E repo _ Hno), app_nil_r. }
  split; [exact Htrace |]. split; [exact Hruns |].
  rewrite Htrace, filter_app.
  assert (Hfs : filter is_fs (detector_events E repo) = []).
  { revert Hruns. generalize (detector_events E repo).
    induction l as [| ev l IH]; [reflexivity |].
    cbn [forallb filter]. rewrite andb_true_iff. intros [Hev Hl].
    destruct ev; try discriminate. cbn. now apply IH. }
  now rewrite Hfs, app_nil_r.
Qed.

Lemma no_fallback_no_file_access_witness :
  trace (snd (run_credential_scan_agent Sample.env_old_cli "repo"
                initial_state))
  = ([] ++ detector_events Sample.env_old_cli "repo")%list
  /\ forallb is_run (detector_events Sample.env_old_cli "repo") = true
  /\ filter is_fs
       (trace (snd (run_credential_scan_agent Sample.env_old_cli "repo"
                      initial_state)))
     = filter is_fs [].
Proof.
  exact (no_fallback_no_file_access Sample.env_old_cli "repo" initial_state
           eq_refl).
Defined.

(** ** Deletions *)

Lemma filter_none (P Q : event -> bool) (l : list event) :
  (forall ev, P ev = true -> Q ev = false) ->
  forallb P l = true -> filter Q l = [].
Proof.
  intros HPQ. induction l as [| ev l IH]; [reflexivity |].
  cbn [forallb filter]. rewrite andb_true_iff. intros [Hev Hl].
  rewrite (HPQ ev Hev). now apply IH.
Qed.

Lemma run_deletes_nothing E repo (s : state) :
  filter is_rmtree (trace (snd (run_credential_scan_agent E repo s)))
  = filter is_rmtree (trace s).
Proof.
  rewrite trace_after_run, !filter_app.
  assert (H1 : filter is_rmtree (detector_events E repo) = []).
  { apply filter_none with (P := is_run); [now intros [] |].
    rewrite detector_events_cases.
    destruct (subprocess_run E (argv_v3 repo)) as [e | r]; [reflexivity |].
    now destruct (wants_retry r). }
  rewrite H1. cbn [app].
  assert (H2 : filter is_rmtree
                 match detector_result E repo with
                 | inr out =>
                     trace (snd (normalized E repo (splitlines (stdout out))))
                 | inl _ => []
                 end = []).
  { destruct (detector_result E repo) as [e | out]; [reflexivity |].
    apply filter_none with (P := is_locate_or_fs); [now intros [] |].
    apply only_process_lines. }
  now rewrite H2, app_nil_r.
Qed.

(** X11. [scan_github_repo] deletes the directory it made and nothing
    else: when [mkdtemp] returned a directory, the run holds exactly one
    removal, of that directory; when [mkdtemp] raised, its exception is
    raised at once and nothing is cloned, scanned or removed. *)
Theorem only_the_workspace_is_deleted E (url : string) (s : state) :
  filter is_rmtree (trace (snd (scan_github_repo E url s)))
  = (filter is_rmtree (trace s)
     ++ match mkdtemp E with
        | inr temp_dir => [EvRmtree temp_dir]
        | inl _ => []
        end)%list
  /\ (forall e,
         mkdtemp E = inl e ->
         scan_github_repo E url s = (inl e, add_event s EvMkdtemp)).
Proof.
  unfold scan_github_repo, bind at 1, tempfile_mkdtemp, bind at 1, emit.
  fold (add_event s EvMkdtemp).
  destruct (mkdtemp E) as [e | temp_dir]; cbn [lift ret raise].
  - split.
    + cbn [snd add_event trace]. rewrite filter_app. reflexivity.
    + intros e' He'. now injection He' as ->.
  - split; [| discriminate].
    unfold try_finally, bind at 1, repo_clone_from, bind at 1, emit.
    set (s1 := {| findings := findings (add_event s EvMkdtemp);
                  trace := trace (add_event s EvMkdtemp)
                           ++ [EvClone url (path_join temp_dir "repo")] |}).
    assert (Hs1 : filter is_rmtree (trace s1) = filter is_rmtree (trace s)).
    { subst s1. cbn [trace add_event]. rewrite !filter_app. cbn.
      now rewrite !app_nil_r. }
    assert (Hbody :
             forall out,
               filter is_rmtree (trace (snd out))
               = filter is_rmtree (trace s) ->
               filter is_rmtree
                 (trace (snd (let (r, s') := out : result report * state in
                              match shutil_rmtree E temp_dir true s' with
                              | (inl e, s'') => (inl e, s'')
                              | (inr _, s'') => (r, s'')
                              end)))
               = (filter is_rmtree (trace s) ++ [EvRmtree temp_dir])%list).
    { intros [r s'] Hout. cbn [snd] in Hout.
      unfold shutil_rmtree, bind, emit.
      destruct (rmtree_error E temp_dir); cbn [snd trace ret];
        now rewrite filter_app, Hout. }
    apply Hbody.
    destruct (clone_from E url (path_join temp_dir "repo")) as [e |];
      cbn [raise ret snd]; [exact Hs1 |].
    now rewrite run_deletes_nothing.
Qed.

(** ** The search as a function of the tree *)

Lemma scan_lines_index (needle : string) (lines : list string) (i : Z) :
  scan_lines (PStr needle) i lines = inr (line_index needle lines i).
Proof.
  revert i. induction lines as [| line rest IH]; intros i; [reflexivity |].
  cbn [scan_lines py_in line_index].
  destruct (contains needle line); [reflexivity | apply IH].
Qed.

Lemma line_index_none (needle : string) (lines : list string) (i : Z) :
  line_index needle lines i = None ->
  existsb (contains needle) lines = false.
Proof.
  revert i. induction lines as [| line rest IH]; intros i; [reflexivity |].
  cbn [line_index existsb].
  destruct (contains needle line); [discriminate |]. apply IH.
Qed.

Lemma walk_first_match (needle : string) (ents : list dir_entry)
    (s : state) :
  survives needle ents = true ->
  exists tr,
    walk (PStr needle) ents s
    = (inr (first_match needle ents),
       {| findings := findings s; trace := tr |}).
Proof.
  revert s. induction ents as [| ent rest IH]; intros s Hs.
  - exists (trace s). now destruct s.
  - cbn [survives] in Hs.
    assert (Hent : has_match needle ent || benign ent = true).
    { destruct (has_match needle ent); [reflexivity |].
      cbn [orb] in *. now apply andb_true_iff in Hs. }
    cbn [walk first_match]. unfold bind.
    rewrite (visit_str needle ent s Hent), scan_lines_index.
    destruct (line_index needle (lines_of ent) 1) as [i |] eqn:Hi.
    + eexists. reflexivity.
    + unfold has_match in Hs. rewrite (line_index_none _ _ _ Hi) in Hs.
      cbn [orb] in Hs. apply andb_true_iff in Hs as [_ Hrest].
      destruct (IH {| findings := findings s;
                      trace := trace s ++ visit_events ent |} Hrest)
        as [tr Htr].
      exists tr. exact Htr.
Qed.

Lemma quiet_benign (ents : list dir_entry) :
  quiet ents = true ->
  forallb benign ents = true /\ has_a_line ents = false.
Proof.
  unfold quiet, has_a_line. induction ents as [| ent rest IH];
    [now split |].
  cbn [forallb existsb]. rewrite !andb_true_iff. intros [[Hb Hl] Hrest].
  destruct (IH Hrest) as [-> ->]. rewrite Hb.
  destruct (lines_of ent); [now split | discriminate].
Qed.

Lemma locate_returns E (repo : string) (raw : pyval) (s : state) :
  truthy raw = true ->
  search_returns raw (rglob E repo) = true ->
  exists tr,
    locate_secret_in_repo E repo raw s
    = (inr (recovered raw (rglob E repo)),
       {| findings := findings s; trace := tr |}).
Proof.
  intros Ht Hs. unfold locate_secret_in_repo, bind, emit. cbn [fst snd].
  rewrite Ht. cbn [negb].
  match goal with |- context [walk raw _ ?s0] => set (s1 := s0) end.
  assert (Hf : findings s1 = findings s) by reflexivity.
  destruct (is_str raw) eqn:Hstr.
  - destruct raw; try discriminate. cbn [search_returns recovered] in *.
    destruct (walk_first_match s0 (rglob E repo) s1 Hs) as [tr ->].
    exists tr. now rewrite Hf.
  - assert (Hq : quiet (rglob E repo) = true)
      by (destruct raw; try discriminate; exact Hs).
    destruct (quiet_benign _ Hq) as [Hb Hl].
    pose proof (walk_non_str raw (rglob E repo) s1 Hstr Hb) as Hw.
    pose proof (walk_keeps_findings raw (rglob E repo) s1) as Hk.
    rewrite Hl in Hw.
    destruct (walk raw (rglob E repo) s1) as [r [fs tr]].
    cbn [fst snd findings] in *. subst r fs.
    exists tr. rewrite Hf.
    now destruct raw; try discriminate.
Qed.

(** ** Records that can be read *)

Lemma readable_is_dict (data : pyval) :
  readable data = true -> exists kvs, data = PDict kvs.
Proof. destruct data; try discriminate. eauto. Qed.

Lemma metadata_field_readable (data : pyval) (key : string) :
  readable data = true -> metadata_field data key = inr (meta data key).
Proof.
  intros H. destruct (readable_is_dict data H) as [kvs ->].
  unfold readable in H. unfold meta, metadata_field. cbn [py_get field].
  destruct (dict_lookup "SourceMetadata" kvs) as [sm |]; [| reflexivity].
  destruct sm as [| | | | | | sm]; try discriminate.
  unfold dict_or_missing in H. cbn [py_get field].
  destruct (dict_lookup "Data" sm) as [d |]; [| reflexivity].
  destruct d; try discriminate. reflexivity.
Qed.

Lemma py_get_readable (data : pyval) (key : string) :
  readable data = true -> py_get data key PNone = inr (field data key).
Proof.
  intros H. destruct (readable_is_dict data H) as [kvs ->]. reflexivity.
Qed.

Lemma fallback_applies_readable (data : pyval) :
  readable data = true -> fallback_applies data = search_wanted data.
Proof.
  intros H. unfold fallback_applies.
  now rewrite !(metadata_field_readable data _ H), (py_get_readable data _ H).
Qed.

Lemma process_record_spec E repo (data : pyval) (s : state) :
  record_ok E repo data = true ->
  exists tr,
    process_record E repo data s
    = (inr tt,
       {| findings := findings s ++ [finding_of E repo data]; trace := tr |}).
Proof.
  unfold record_ok. rewrite andb_true_iff. intros [Hread Hsearch].
  unfold process_record, bind, finding_of.
  rewrite !(metadata_field_readable data _ Hread),
    !(py_get_readable data _ Hread).
  cbn [lift ret]. unfold append_finding.
  change (needs_fallback (meta data "file") (meta data "line")
            (field data "Raw")) with (search_wanted data).
  destruct (search_wanted data) eqn:Hw; cbn [negb orb] in Hsearch.
  - assert (Hraw : truthy (field data "Raw") = true).
    { unfold search_wanted in Hw. now apply andb_true_iff in Hw. }
    destruct (locate_returns E repo (field data "Raw") s Hraw Hsearch)
      as [tr ->].
    cbn [fst snd findings trace]. eexists. reflexivity.
  - eexists. reflexivity.
Qed.

Lemma process_lines_spec E repo (lines : list string) :
  lines_ok E repo lines = true ->
  forall s, exists tr,
    process_lines E repo lines s
    = (inr tt,
       {| findings := findings s ++ map (finding_of E repo) (records E lines);
          trace := tr |}).
Proof.
  unfold lines_ok. rewrite andb_true_iff. intros [Hraise Hrecs].
  induction lines as [| line rest IH]; intros s.
  - exists (trace s). destruct s; cbn. now rewrite app_nil_r.
  - cbn [forallb] in Hraise. apply andb_true_iff in Hraise as [Hline Hrest].
    cbn [process_lines records] in *. unfold bind, process_line.
    unfold decode, is_raising_line in *.
    destruct ((strip line =? "")%string); [apply (IH Hrest Hrecs) |].
    destruct (json_loads E (strip line)) as [data | | e];
      [| apply (IH Hrest Hrecs) | discriminate].
    cbn [forallb] in Hrecs. apply andb_true_iff in Hrecs as [Hdata Hrecs].
    destruct (process_record_spec E repo data s Hdata) as [tr ->].
    destruct (IH Hrest Hrecs
                {| findings := findings s ++ [finding_of E repo data];
                   trace := tr |}) as [tr' ->].
    exists tr'. cbn [findings map]. now rewrite <- app_assoc.
Qed.


(** ** The lines of an output *)

Lemma append_empty_r (s : string) : s ++ "" = s.
Proof. induction s as [| c s IH]; [reflexivity |]. cbn. now rewrite IH. Qed.

Lemma append_assoc_string (a b c : string) : (a ++ b) ++ c = a ++ (b ++ c).
Proof. induction a as [| x a IH]; [reflexivity |]. cbn. now rewrite IH. Qed.

Lemma splitlines_from_line (cur line rest : string) :
  no_linebreak line = true ->
  splitlines_from cur (line ++ String LF rest)
  = (cur ++ line) :: splitlines_from "" rest.
Proof.
  revert cur. induction line as [| c line IH]; intros cur.
  - intros _. cbn [append splitlines_from]. rewrite append_empty_r.
    change (is_linebreak LF) with true. cbv iota.
    now destruct rest.
  - cbn [no_linebreak append splitlines_from]. rewrite andb_true_iff.
    intros [Hc Hline]. apply negb_true_iff in Hc. rewrite Hc.
    rewrite (IH _ Hline), append_assoc_string. reflexivity.
Qed.

Lemma splitlines_unlines (lines : list string) :
  forallb no_linebreak lines = true -> splitlines (unlines lines) = lines.
Proof.
  unfold splitlines. induction lines as [| line rest IH]; [reflexivity |].
  cbn [forallb unlines]. rewrite andb_true_iff. intros [Hline Hrest].
  rewrite (splitlines_from_line "" line _ Hline). cbn [append].
  now rewrite (IH Hrest).
Qed.

(** What a scan gives on an output all of whose lines can be handled. *)
Lemma run_parses E (repo : string) (out : CompletedProcess)
    (lines : list string) (s : state) :
  detector_result E repo = inr out ->
  stdout out = unlines lines ->
  forallb no_linebreak lines = true ->
  lines_ok E repo lines = true ->
  fst (run_credential_scan_agent E repo s)
  = inr (expected_report (map (finding_of E repo) (records E lines)))
  /\ findings (snd (run_credential_scan_agent E repo s))
     = map (finding_of E repo) (records E lines).
Proof.
  intros Hout Hstd Hnl Hok. rewrite run_unfold, Hout, Hstd.
  rewrite (splitlines_unlines lines Hnl).
  destruct (process_lines_spec E repo lines Hok (after_invocation E repo s))
    as [tr ->].
  cbn [finish fst snd findings after_invocation app]. split; reflexivity.
Qed.


(** ** Normalization of lines that can be handled *)



(** Two more ways for a line to defeat the loop. An integer of 4301 digits
    makes [json.loads] raise [ValueError], which is no [JSONDecodeError]:
    the scan fails although the line before gave a finding. *)
Example huge_integer_aborts :
  fst (run_credential_scan_agent More.env_huge_integer "repo" initial_state)
  = inr (failed_report
           (Exn ValueError
              ("Exceeds the limit (4300 digits) for integer string "
                 ++ "conversion: value has 4301 digits; use "
                 ++ "sys.set_int_max_str_digits() to increase the limit")))
  /\ findings (snd (run_credential_scan_agent More.env_huge_integer "repo"
                      initial_state))
     = [Sample.bare_finding].
Proof. split; vm_compute; reflexivity. Qed.

(** An object whose text holds U+0085 is cut in two by [splitlines];
    neither piece parses and its finding is lost. *)
Example line_boundary_inside_an_object :
  json_loads More.env_nel More.line_with_nel
  = Loaded (PDict [("Raw", PStr ("a" ++ String "133"%char "b"))])
  /\ length (splitlines (More.line_with_nel ++ Sample.nl)) = 2%nat
  /\ fst (run_credential_scan_agent More.env_nel "repo" initial_state)
     = inr {| agent := "credential_scan";
              score := 0;
              details := [[("info", PStr "No secrets found")]] |}.
Proof. repeat split; reflexivity. Qed.

(** ** The two command lines *)

Lemma argv_v3_is (repo : string) :
  argv_v3 repo = ["trufflehog"; "filesystem"; "--path"; repo; "--json"].
Proof. reflexivity. Qed.

Lemma argv_v2_is (repo : string) :
  argv_v2 repo = ["trufflehog"; "filesystem"; repo; "--json"].
Proof. reflexivity. Qed.

Lemma wants_retry_is (r : CompletedProcess) :
  wants_retry r
  = negb (returncode r =? 0)
    && contains "unknown long flag '--path'" (stderr r).
Proof. reflexivity. Qed.

(** C8. The first thing a scan does is to run
    [trufflehog filesystem --path <repo> --json]. The detector is run a
    second time, as [trufflehog filesystem <repo> --json], exactly when the
    first run returned a non-zero exit status and its error output contains
    [unknown long flag '--path']; there is never a third run. When there
    is no retry, whatever the exit status, it is the first run's output
    that the loop goes through: if all its lines can be handled, each
    object line gives its finding and the Report is built from them. After
    a retry the same holds of the second run's output, or the second run's
    exception ends the scan. *)
Theorem one_retry_on_path_flag E (repo : string) (s : state) :
  let flagged := ["trufflehog"; "filesystem"; "--path"; repo; "--json"] in
  let positional := ["trufflehog"; "filesystem"; repo; "--json"] in
  let retried := fun r =>
    negb (returncode r =? 0)
    && contains "unknown long flag '--path'" (stderr r) in
  let scan := run_credential_scan_agent E repo s in
  let parsed := fun (out : CompletedProcess) (started : state) =>
    scan = finish (process_lines E repo (splitlines (stdout out)) started)
    /\ forall lines,
         stdout out = unlines lines ->
         forallb no_linebreak lines = true ->
         forallb (fun line => negb (is_raising_line E line)) lines = true ->
         forallb (record_ok E repo) (records E lines) = true ->
         findings (snd scan) = map (finding_of E repo) (records E lines)
         /\ fst scan
            = inr (expected_report
                     (map (finding_of E repo) (records E lines))) in
  (exists tl, trace (snd scan) = (trace s ++ EvRun flagged :: tl)%list)
  /\ runs (trace (snd scan))
     = (runs (trace s)
        ++ match subprocess_run E flagged with
           | inr r =>
               if retried r then [EvRun flagged; EvRun positional]
               else [EvRun flagged]
           | inl _ => [EvRun flagged]
           end)%list
  /\ (forall r,
         subprocess_run E flagged = inr r ->
         retried r = false ->
         parsed r {| findings := []; trace := trace s ++ [EvRun flagged] |})
  /\ (forall r,
         subprocess_run E flagged = inr r ->
         retried r = true ->
         match subprocess_run E positional with
         | inr r2 =>
             parsed r2
               {| findings := [];
                  trace := trace s ++ [EvRun flagged; EvRun positional] |}
         | inl e =>
             scan
             = finish (inl e,
                       {| findings := [];
                          trace := trace s
                                   ++ [EvRun flagged; EvRun positional] |})
         end).
Proof.
  intros flagged positional retried scan parsed.
  assert (Hparsed : forall out started,
             detector_result E repo = inr out ->
             started = after_invocation E repo s ->
             parsed out started).
  { intros out started Hout ->. split.
    - subst scan. now rewrite run_unfold, Hout.
    - intros lines Hstd Hnl Hraise Hrecs.
      assert (Hok : lines_ok E repo lines = true).
      { unfold lines_ok. now rewrite Hraise, Hrecs. }
      destruct (run_parses E repo out lines s Hout Hstd Hnl Hok). auto. }
  subst flagged positional retried.
  rewrite <- (argv_v3_is repo), <- (argv_v2_is repo) in *.
  split; [| split; [| split]].
  - subst scan. rewrite trace_after_run, detector_events_cases.
    destruct (subprocess_run E (argv_v3 repo)) as [e | r];
      [| destruct (wants_retry r)]; cbn [app]; eauto.
  - subst scan. rewrite trace_after_run. unfold runs. rewrite !filter_app.
    f_equal. fold (runs (trace s)).
    assert (Hquiet : filter is_run
                       match detector_result E repo with
                       | inr out =>
                           trace (snd (normalized E repo
                                         (splitlines (stdout out))))
                       | inl _ => []
                       end = []).
    { destruct (detector_result E repo) as [e | out]; [reflexivity |].
      apply no_runs_among_locate_or_fs, only_process_lines. }
    rewrite Hquiet, app_nil_r, detector_events_cases.
    destruct (subprocess_run E (argv_v3 repo)) as [e | r]; [reflexivity |].
    rewrite <- wants_retry_is. now destruct (wants_retry r).
  - intros r Hr Hno. rewrite <- wants_retry_is in Hno.
    apply Hparsed.
    + now rewrite detector_result_cases, Hr, Hno.
    + unfold after_invocation. now rewrite detector_events_cases, Hr, Hno.
  - intros r Hr Hyes. rewrite <- wants_retry_is in Hyes.
    assert (Hstate : after_invocation E repo s
                     = {| findings := [];
                          trace := trace s
                                   ++ [EvRun (argv_v3 repo);
                                       EvRun (argv_v2 repo)] |}).
    { unfold after_invocation.
      now rewrite detector_events_cases, Hr, Hyes. }
    destruct (subprocess_run E (argv_v2 repo)) as [e | r2] eqn:Hr2.
    + subst scan. rewrite run_unfold, detector_result_cases, Hr, Hyes, Hr2.
      now rewrite Hstate.
    + apply Hparsed; [| now rewrite Hstate].
      now rewrite detector_result_cases, Hr, Hyes.
Qed.

Lemma one_retry_on_path_flag_witness :
  runs (trace (snd (run_credential_scan_agent Sample.env_old_cli "repo"
                      initial_state)))
  = [EvRun ["trufflehog"; "filesystem"; "--path"; "repo"; "--json"];
     EvRun ["trufflehog"; "filesystem"; "repo"; "--json"]]
  /\ findings (snd (run_credential_scan_agent Sample.env_findings "repo"
                      initial_state))
     = [[("file", PStr "app/config.py"); ("line", PInt 12);
         ("detector", PStr "AWS"); ("raw", PStr "AKIA1234")];
        [("file", PStr "repo/src/settings.py"); ("line", PInt 7);
         ("detector", PStr "Generic"); ("raw", PStr "SECRET123")]]
  /\ runs (trace (snd (run_credential_scan_agent Sample.env_findings "repo"
                         initial_state)))
     = [EvRun ["trufflehog"; "filesystem"; "--path"; "repo"; "--json"]].
Proof.
  split; [| split].
  - exact (proj1 (proj2 (one_retry_on_path_flag Sample.env_old_cli "repo"
                           initial_state))).
  - exact (proj1
             (proj2
                (proj1 (proj2 (proj2 (one_retry_on_path_flag
                                        Sample.env_findings "repo"
                                        initial_state)))
                   (Sample.completed 183
                      (Sample.line_located ++ Sample.nl ++ "scan finished"
                         ++ Sample.nl ++ Sample.nl ++ Sample.line_unlocated
                         ++ Sample.nl)
                      "")
                   eq_refl eq_refl)
                [Sample.line_located; "scan finished"; "";
                 Sample.line_unlocated]
                eq_refl eq_refl eq_refl eq_refl)).
  - exact (proj1 (proj2 (one_retry_on_path_flag Sample.env_findings "repo"
                           initial_state))).
Defined.

(** ** What the fallback puts into a finding *)



